(** * The draw-batching engine of otclient: DrawPool and DrawBuffer

    A shallow embedding of [framework/graphics/drawpool.h]: the paint state
    snapshot ([PoolState]), the emitted unit of work ([DrawObject]), the
    cache slot ([DrawBuffer]) and the pool itself ([DrawPool]), followed by
    the properties of the batching engine that the design document states.

    Conventions.
    - C++ integers are [Z] with the wrap-around of their width written out
      where an operation can leave the range.
    - [float] is the kernel's IEEE float; [==] on it is [PrimFloat.eqb].
    - A pointer ([std::shared_ptr], raw pointer) is an optional address.
    - A method that mutates [*this] becomes a function returning the new
      object; a method that must not be called in some state (it would
      dereference an empty optional or index past the end) returns [option].
    - Types and constants that the header only names (they are declared in
      other headers of the framework) are the fields of [Framework]. *)

From Stdlib Require Import ZArith Bool.
From Stdlib Require Import Floats.PrimFloat.
From stdpp Require Import base option list gmap.

Local Open Scope Z_scope.

(** ** What the header takes from the rest of the framework *)

(** [declarations.h], [texture.h], [const.h] and the painter headers give
    the header its value types. Each comes with the comparison the header
    uses on it and the constants the header names. *)
Class Framework := {
  (** [MAX_Z] of [client/const.h]: the deepest map floor. *)
  MAX_Z : Z;
  (** [Matrix3], its [operator==] and the default-constructed matrix. *)
  Matrix3 : Type;
  Matrix3_eq : Matrix3 -> Matrix3 -> bool;
  Matrix3_null : Matrix3;
  (** [Color], its [operator==], the default-constructed colour and
      [Color::white]. *)
  Color : Type;
  Color_eq : Color -> Color -> bool;
  Color_null : Color;
  Color_white : Color;
  (** [Rect], its [operator==] and the value-initialised [Rect{}]. *)
  Rect : Type;
  Rect_eq : Rect -> Rect -> bool;
  Rect_null : Rect;
  (** [Point], its [operator!=] and the value-initialised [Point{}]. *)
  Point : Type;
  Point_ne : Point -> Point -> bool;
  Point_null : Point;
  (** [enum class CompositionMode] with its enumerator [NORMAL]. *)
  CompositionMode : Type;
  CompositionMode_eq : CompositionMode -> CompositionMode -> bool;
  CompositionMode_NORMAL : CompositionMode;
  (** [enum class BlendEquation] with its enumerator [ADD]. *)
  BlendEquation : Type;
  BlendEquation_eq : BlendEquation -> BlendEquation -> bool;
  BlendEquation_ADD : BlendEquation;
  (** [enum class DrawMode] with its enumerator [TRIANGLES]. *)
  DrawMode : Type;
  DrawMode_eq : DrawMode -> DrawMode -> bool;
  DrawMode_TRIANGLES : DrawMode;
  (** [Timer] of [framework/core/timer.h] and a default-constructed one. *)
  Timer : Type;
  Timer_null : Timer;
}.

(** An address; [None] is [nullptr]. *)
Definition ptr : Type := option Z.

(** [==] on two pointers compares the addresses. *)
Definition ptr_eq (p q : ptr) : bool :=
  match p, q with
  | None, None => true
  | Some a, Some b => Z.eqb a b
  | _, _ => false
  end.

(** A [std::function<void()>]: a handle on the stored callable, [None] when
    it is empty. The engine stores and copies closures, it never compares
    them. *)
Definition Closure : Type := option Z.

(** [size_t] on the 64-bit targets the client builds for. *)
Definition SIZE_MAX : Z := 2 ^ 64 - 1.

(** [uint8_t] arithmetic wraps modulo 256. *)
Definition wrap8 (z : Z) : Z := z mod 256.

(** ** DrawPool::DrawOrder *)

Inductive DrawOrder : Type :=
  | NONE
  | FIRST   (* GROUND *)
  | SECOND  (* BORDER *)
  | THIRD   (* BOTTOM & TOP *)
  | FOURTH  (* TOP ~ TOP *)
  | FIFTH   (* ABOVE ALL - MISSILE *)
  | LAST.

(** The enumerator values: [NONE = -1], then counting from [FIRST = 0]. *)
Definition DrawOrder_value (o : DrawOrder) : Z :=
  match o with
  | NONE => -1
  | FIRST => 0
  | SECOND => 1
  | THIRD => 2
  | FOURTH => 3
  | FIFTH => 4
  | LAST => 5
  end.

(** ** DrawBuffer *)

Record DrawBuffer `{Framework} := mkDrawBuffer {
  m_i : Z;                 (* int m_i{ -1 } *)
  m_agroup : bool;         (* bool m_agroup{ true } *)
  m_order : DrawOrder;     (* DrawPool::DrawOrder m_order{ FIRST } *)
  m_ref : Point;           (* Point m_ref *)
  m_hashs : list Z;        (* std::vector<size_t> m_hashs *)
  m_coords : ptr;          (* CoordsBufferPtr m_coords *)
}.

(** [DrawBuffer(order, agroup = true)]. *)
Definition DrawBuffer_new `{Framework} (order : DrawOrder) (agroup : bool) : DrawBuffer :=
  {| m_i := -1; m_agroup := agroup; m_order := order;
     m_ref := Point_null; m_hashs := []; m_coords := None |}.

(** [void invalidate() { m_i = -1; }] *)
Definition invalidate `{Framework} (b : DrawBuffer) : DrawBuffer :=
  {| m_i := -1; m_agroup := m_agroup b; m_order := m_order b;
     m_ref := m_ref b; m_hashs := m_hashs b; m_coords := m_coords b |}.

(** [buffer->m_i = -2; // identifier to say it is a temporary buffer.] *)
Definition createTemporaryBuffer `{Framework} (order : DrawOrder) : DrawBuffer :=
  let buffer := DrawBuffer_new order true in
  {| m_i := -2; m_agroup := m_agroup buffer; m_order := m_order buffer;
     m_ref := m_ref buffer; m_hashs := m_hashs buffer; m_coords := m_coords buffer |}.

(** [bool isValid() { return m_i > -1; }] *)
Definition isValid `{Framework} (b : DrawBuffer) : bool := -1 <? m_i b.

(** [bool isTemporary() { return m_i == -2; }] *)
Definition isTemporary `{Framework} (b : DrawBuffer) : bool := m_i b =? -2.

(** [m_ref = p] *)
Definition set_ref `{Framework} (p : Point) (b : DrawBuffer) : DrawBuffer :=
  {| m_i := m_i b; m_agroup := m_agroup b; m_order := m_order b;
     m_ref := p; m_hashs := m_hashs b; m_coords := m_coords b |}.

(** [[
    bool validate(const Point& p)
    {
        if (m_ref != p) { m_ref = p; invalidate(); }
        return isValid();
    }
    ]]
    The result is the buffer after the call and the value returned. *)
Definition validate `{Framework} (p : Point) (b : DrawBuffer) : DrawBuffer * bool :=
  let b' := if Point_ne (m_ref b) p then invalidate (set_ref p b) else b in
  (b', isValid b').

(** The two mutators a holder of a buffer can call on it after creation. *)
Inductive BufferOp `{Framework} : Type :=
  | OpValidate (p : Point)
  | OpInvalidate.

Definition apply_op `{Framework} (b : DrawBuffer) (op : BufferOp) : DrawBuffer :=
  match op with
  | OpValidate p => fst (validate p b)
  | OpInvalidate => invalidate b
  end.

(** A sequence of calls, first call first. *)
Definition apply_ops `{Framework} (ops : list BufferOp) (b : DrawBuffer) : DrawBuffer :=
  fold_left apply_op ops b.

(** Whether a call leaves the sentinel of a temporary buffer whose stored
    reference point is [ref] in place: only a [validate] against [ref]
    itself does. *)
Definition keeps_sentinel `{Framework} (ref : Point) (op : BufferOp) : bool :=
  match op with
  | OpValidate p => negb (Point_ne ref p)
  | OpInvalidate => false
  end.

(** ** DrawPool::PoolState *)

Record PoolState `{Framework} := mkPoolState {
  transformMatrix : Matrix3;
  color : Color;
  opacity : float;                    (* float opacity{ 1.f } *)
  compositionMode : CompositionMode;  (* { CompositionMode::NORMAL } *)
  blendEquation : BlendEquation;      (* { BlendEquation::ADD } *)
  clipRect : Rect;
  texture : ptr;                      (* TexturePtr *)
  shaderProgram : ptr;                (* PainterShaderProgram* { nullptr } *)
  action : Closure;                   (* std::function<void()> { nullptr } *)
}.

(** The default member initialisers of [PoolState]. *)
Definition PoolState_new `{Framework} : PoolState :=
  {| transformMatrix := Matrix3_null; color := Color_null; opacity := 1%float;
     compositionMode := CompositionMode_NORMAL; blendEquation := BlendEquation_ADD;
     clipRect := Rect_null; texture := None; shaderProgram := None; action := None |}.

(** [[
    bool operator==(const PoolState& s2) const
    {
        return
            transformMatrix == s2.transformMatrix &&
            color == s2.color &&
            opacity == s2.opacity &&
            compositionMode == s2.compositionMode &&
            blendEquation == s2.blendEquation &&
            clipRect == s2.clipRect &&
            texture == s2.texture &&
            shaderProgram == s2.shaderProgram;
    }
    ]] *)
Definition PoolState_eq `{Framework} (s1 s2 : PoolState) : bool :=
  Matrix3_eq (transformMatrix s1) (transformMatrix s2) &&
  Color_eq (color s1) (color s2) &&
  PrimFloat.eqb (opacity s1) (opacity s2) &&
  CompositionMode_eq (compositionMode s1) (compositionMode s2) &&
  BlendEquation_eq (blendEquation s1) (blendEquation s2) &&
  Rect_eq (clipRect s1) (clipRect s2) &&
  ptr_eq (texture s1) (texture s2) &&
  ptr_eq (shaderProgram s1) (shaderProgram s2).

(** Field updates of the pool's current state, one per member the header
    assigns. *)
Definition set_action `{Framework} (a : Closure) (s : PoolState) : PoolState :=
  {| transformMatrix := transformMatrix s; color := color s; opacity := opacity s;
     compositionMode := compositionMode s; blendEquation := blendEquation s;
     clipRect := clipRect s; texture := texture s; shaderProgram := shaderProgram s;
     action := a |}.

Definition set_opacity `{Framework} (v : float) (s : PoolState) : PoolState :=
  {| transformMatrix := transformMatrix s; color := color s; opacity := v;
     compositionMode := compositionMode s; blendEquation := blendEquation s;
     clipRect := clipRect s; texture := texture s; shaderProgram := shaderProgram s;
     action := action s |}.

Definition set_clipRect `{Framework} (r : Rect) (s : PoolState) : PoolState :=
  {| transformMatrix := transformMatrix s; color := color s; opacity := opacity s;
     compositionMode := compositionMode s; blendEquation := blendEquation s;
     clipRect := r; texture := texture s; shaderProgram := shaderProgram s;
     action := action s |}.

Definition set_shaderProgram `{Framework} (sp : ptr) (s : PoolState) : PoolState :=
  {| transformMatrix := transformMatrix s; color := color s; opacity := opacity s;
     compositionMode := compositionMode s; blendEquation := blendEquation s;
     clipRect := clipRect s; texture := texture s; shaderProgram := sp;
     action := action s |}.

Definition set_compositionMode `{Framework} (m : CompositionMode) (s : PoolState) : PoolState :=
  {| transformMatrix := transformMatrix s; color := color s; opacity := opacity s;
     compositionMode := m; blendEquation := blendEquation s;
     clipRect := clipRect s; texture := texture s; shaderProgram := shaderProgram s;
     action := action s |}.

Definition set_blendEquation `{Framework} (e : BlendEquation) (s : PoolState) : PoolState :=
  {| transformMatrix := transformMatrix s; color := color s; opacity := opacity s;
     compositionMode := compositionMode s; blendEquation := e;
     clipRect := clipRect s; texture := texture s; shaderProgram := shaderProgram s;
     action := action s |}.

Definition set_color `{Framework} (c : Color) (s : PoolState) : PoolState :=
  {| transformMatrix := transformMatrix s; color := c; opacity := opacity s;
     compositionMode := compositionMode s; blendEquation := blendEquation s;
     clipRect := clipRect s; texture := texture s; shaderProgram := shaderProgram s;
     action := action s |}.

Definition set_texture `{Framework} (t : ptr) (s : PoolState) : PoolState :=
  {| transformMatrix := transformMatrix s; color := color s; opacity := opacity s;
     compositionMode := compositionMode s; blendEquation := blendEquation s;
     clipRect := clipRect s; texture := t; shaderProgram := shaderProgram s;
     action := action s |}.

(** ** DrawPool::DrawMethod *)

Inductive DrawMethodType : Type :=
  | RECT
  | TRIANGLE
  | REPEATED_RECT
  | BOUNDING_RECT
  | UPSIDEDOWN_RECT.

Record DrawMethod `{Framework} := mkDrawMethod {
  type : DrawMethodType;
  rects : option (Rect * Rect);
  points : option (Point * Point * Point);
  dest : option Point;
  intValue : Z;                       (* uint16_t intValue{ 0 } *)
}.

(** ** DrawPool::DrawObject *)

Record DrawObject `{Framework} := mkDrawObject {
  drawMode : DrawMode;                   (* { DrawMode::TRIANGLES } *)
  buffer : ptr;                          (* DrawBufferPtr *)
  state : option PoolState;
  method : option DrawMethod;
  methods : option (list DrawMethod);
  object_action : Closure;               (* action{ nullptr } *)
}.

(** [DrawObject(std::function<void()> action)] *)
Definition DrawObject_of_action `{Framework} (a : Closure) : DrawObject :=
  {| drawMode := DrawMode_TRIANGLES; buffer := None; state := None;
     method := None; methods := None; object_action := a |}.

(** [DrawObject(const PoolState& state, const DrawBufferPtr& buffer)] *)
Definition DrawObject_of_buffer `{Framework} (s : PoolState) (b : ptr) : DrawObject :=
  {| drawMode := DrawMode_TRIANGLES; buffer := b; state := Some s;
     method := None; methods := None; object_action := None |}.

(** [DrawObject(DrawMode drawMode, const PoolState& state, const DrawMethod& method)] *)
Definition DrawObject_of_method `{Framework} (dm : DrawMode) (s : PoolState) (m : DrawMethod) : DrawObject :=
  {| drawMode := dm; buffer := None; state := Some s;
     method := Some m; methods := None; object_action := None |}.

(** [[
    void addMethod(const DrawMethod& method)
    {
        if (!methods.has_value()) {
            methods = std::vector<DrawMethod>();
            methods->emplace_back( *this->method );
        }
        drawMode = DrawMode::TRIANGLES;
        methods->emplace_back(method);
    }
    ]]
    Dereferencing [this->method] reads the single method; on an object that has neither
    a list nor a single method the read is undefined, which is [None]. *)
Definition addMethod `{Framework} (m : DrawMethod) (o : DrawObject) : option DrawObject :=
  match
    match methods o with
    | Some ms => Some ms
    | None => match method o with
              | Some m1 => Some ([] ++ [m1])
              | None => None
              end
    end
  with
  | Some ms =>
      Some {| drawMode := DrawMode_TRIANGLES; buffer := buffer o; state := state o;
              method := method o; methods := Some (ms ++ [m]);
              object_action := object_action o |}
  | None => None
  end.

(** ** DrawPool *)

Inductive DrawPoolType : Type :=
  | MAP
  | CREATURE_INFORMATION
  | LIGHT
  | TEXT
  | FOREGROUND
  | UNKNOW.

(** The data members of [DrawPool]. [m_objects] is an array of vectors
    indexed by floor and by order; it is kept as a finite map from the two
    indices to the vector, where an index that was never pushed to holds
    the empty vector. *)
Record DrawPool `{Framework} := mkDrawPool {
  m_enabled : bool;                            (* { true } *)
  m_alwaysGroupDrawings : bool;                (* { false } *)
  m_autoUpdate : bool;                         (* { false } *)
  m_currentOrder : Z;                          (* uint8_t { 0 } *)
  m_currentFloor : Z;                          (* uint8_t { 0 } *)
  m_refreshTimeMS : Z;                         (* uint16_t { 0 } *)
  m_state : PoolState;
  m_type : DrawPoolType;                       (* { DrawPoolType::UNKNOW } *)
  m_refreshTimer : Timer;
  m_status : Z * Z;                            (* std::pair<size_t, size_t> { 1, 0 } *)
  m_objects : gmap (Z * Z) (list DrawObject);  (* std::vector<DrawObject> [ARR_MAX_Z][LAST] *)
  m_objectsByhash : gmap Z DrawObject;         (* stdext::map<size_t, DrawObject> *)
}.

(** A pool as its default member initialisers leave it. *)
Definition DrawPool_new `{Framework} : DrawPool :=
  {| m_enabled := true; m_alwaysGroupDrawings := false; m_autoUpdate := false;
     m_currentOrder := 0; m_currentFloor := 0; m_refreshTimeMS := 0;
     m_state := PoolState_new; m_type := UNKNOW; m_refreshTimer := Timer_null;
     m_status := (1, 0); m_objects := ∅; m_objectsByhash := ∅ |}.

Definition set_currentFloor `{Framework} (z : Z) (p : DrawPool) : DrawPool :=
  {| m_enabled := m_enabled p; m_alwaysGroupDrawings := m_alwaysGroupDrawings p;
     m_autoUpdate := m_autoUpdate p; m_currentOrder := m_currentOrder p;
     m_currentFloor := z; m_refreshTimeMS := m_refreshTimeMS p;
     m_state := m_state p; m_type := m_type p; m_refreshTimer := m_refreshTimer p;
     m_status := m_status p; m_objects := m_objects p;
     m_objectsByhash := m_objectsByhash p |}.

Definition set_currentOrder `{Framework} (z : Z) (p : DrawPool) : DrawPool :=
  {| m_enabled := m_enabled p; m_alwaysGroupDrawings := m_alwaysGroupDrawings p;
     m_autoUpdate := m_autoUpdate p; m_currentOrder := z;
     m_currentFloor := m_currentFloor p; m_refreshTimeMS := m_refreshTimeMS p;
     m_state := m_state p; m_type := m_type p; m_refreshTimer := m_refreshTimer p;
     m_status := m_status p; m_objects := m_objects p;
     m_objectsByhash := m_objectsByhash p |}.

Definition set_state `{Framework} (s : PoolState) (p : DrawPool) : DrawPool :=
  {| m_enabled := m_enabled p; m_alwaysGroupDrawings := m_alwaysGroupDrawings p;
     m_autoUpdate := m_autoUpdate p; m_currentOrder := m_currentOrder p;
     m_currentFloor := m_currentFloor p; m_refreshTimeMS := m_refreshTimeMS p;
     m_state := s; m_type := m_type p; m_refreshTimer := m_refreshTimer p;
     m_status := m_status p; m_objects := m_objects p;
     m_objectsByhash := m_objectsByhash p |}.

Definition set_status `{Framework} (st : Z * Z) (p : DrawPool) : DrawPool :=
  {| m_enabled := m_enabled p; m_alwaysGroupDrawings := m_alwaysGroupDrawings p;
     m_autoUpdate := m_autoUpdate p; m_currentOrder := m_currentOrder p;
     m_currentFloor := m_currentFloor p; m_refreshTimeMS := m_refreshTimeMS p;
     m_state := m_state p; m_type := m_type p; m_refreshTimer := m_refreshTimer p;
     m_status := st; m_objects := m_objects p;
     m_objectsByhash := m_objectsByhash p |}.

Definition set_objects `{Framework} (m : gmap (Z * Z) (list DrawObject)) (p : DrawPool) : DrawPool :=
  {| m_enabled := m_enabled p; m_alwaysGroupDrawings := m_alwaysGroupDrawings p;
     m_autoUpdate := m_autoUpdate p; m_currentOrder := m_currentOrder p;
     m_currentFloor := m_currentFloor p; m_refreshTimeMS := m_refreshTimeMS p;
     m_state := m_state p; m_type := m_type p; m_refreshTimer := m_refreshTimer p;
     m_status := m_status p; m_objects := m;
     m_objectsByhash := m_objectsByhash p |}.

Definition set_objectsByhash `{Framework} (m : gmap Z DrawObject) (p : DrawPool) : DrawPool :=
  {| m_enabled := m_enabled p; m_alwaysGroupDrawings := m_alwaysGroupDrawings p;
     m_autoUpdate := m_autoUpdate p; m_currentOrder := m_currentOrder p;
     m_currentFloor := m_currentFloor p; m_refreshTimeMS := m_refreshTimeMS p;
     m_state := m_state p; m_type := m_type p; m_refreshTimer := m_refreshTimer p;
     m_status := m_status p; m_objects := m_objects p;
     m_objectsByhash := m |}.

(** [static constexpr uint8_t ARR_MAX_Z = MAX_Z + 1;] *)
Definition ARR_MAX_Z `{Framework} : Z := wrap8 (MAX_Z + 1).

(** [void repaint() { m_status.first = 1; }] *)
Definition repaint `{Framework} (p : DrawPool) : DrawPool :=
  set_status (1, snd (m_status p)) p.

(** [m_objects[floor][order]] *)
Definition objects_at `{Framework} (m : gmap (Z * Z) (list DrawObject)) (floor order : Z) : list DrawObject :=
  default [] (m !! (floor, order)).

(** The bucket under the cursor, [m_objects[m_currentFloor][m_currentOrder]]. *)
Definition current_bucket `{Framework} (p : DrawPool) : list DrawObject :=
  objects_at (m_objects p) (m_currentFloor p) (m_currentOrder p).

(** [v[i]] on a [std::vector] with a [size_t] index: an element inside the
    vector, nothing to read past its end. *)
Definition vector_at {A : Type} (v : list A) (i : Z) : option A :=
  if (0 <=? i) && (i <? Z.of_nat (length v)) then v !! Z.to_nat i else None.

(** [[
    DrawObject& getLastDrawObject()
    {
        auto& list = m_objects[m_currentFloor][m_currentOrder];
        return list[list.size() - 1];
    }
    ]]
    [list.size() - 1] is a [size_t] subtraction: on an empty vector it
    wraps to [SIZE_MAX]. *)
Definition getLastDrawObject `{Framework} (p : DrawPool) : option DrawObject :=
  let list := current_bucket p in
  vector_at list ((Z.of_nat (length list) - 1) mod (SIZE_MAX + 1)).

(** [[
    float getOpacity(bool lastDrawing = false)
    { return !lastDrawing ? m_state.opacity : getLastDrawObject().state->opacity; }
    ]]
    [state->opacity] reads through the optional; an empty optional has
    nothing to read. *)
Definition getOpacity `{Framework} (lastDrawing : bool) (p : DrawPool) : option float :=
  if negb lastDrawing then Some (opacity (m_state p))
  else match getLastDrawObject p with
       | Some o => match state o with
                   | Some s => Some (opacity s)
                   | None => None
                   end
       | None => None
       end.

(** [[
    Rect getClipRect(bool lastDrawing = false)
    { return !lastDrawing ? m_state.clipRect : getLastDrawObject().state->clipRect; }
    ]] *)
Definition getClipRect `{Framework} (lastDrawing : bool) (p : DrawPool) : option Rect :=
  if negb lastDrawing then Some (clipRect (m_state p))
  else match getLastDrawObject p with
       | Some o => match state o with
                   | Some s => Some (clipRect s)
                   | None => None
                   end
       | None => None
       end.

(** The precondition of reading the last drawing: the bucket under the
    cursor ends with a DrawCall that carries a state. *)
Definition last_has_state `{Framework} (p : DrawPool) : Prop :=
  exists l o s, current_bucket p = l ++ [o] /\ state o = Some s.

(** [void resetOpacity() { m_state.opacity = 1.f; }] *)
Definition resetOpacity `{Framework} (p : DrawPool) : DrawPool :=
  set_state (set_opacity 1%float (m_state p)) p.

(** [void resetClipRect() { m_state.clipRect = {}; }] *)
Definition resetClipRect `{Framework} (p : DrawPool) : DrawPool :=
  set_state (set_clipRect Rect_null (m_state p)) p.

(** [void resetShaderProgram() { m_state.shaderProgram = nullptr; }] *)
Definition resetShaderProgram `{Framework} (p : DrawPool) : DrawPool :=
  set_state (set_shaderProgram None (m_state p)) p.

(** [void resetCompositionMode() { m_state.compositionMode = CompositionMode::NORMAL; }] *)
Definition resetCompositionMode `{Framework} (p : DrawPool) : DrawPool :=
  set_state (set_compositionMode CompositionMode_NORMAL (m_state p)) p.

(** [void resetBlendEquation() { m_state.blendEquation = BlendEquation::ADD; }] *)
Definition resetBlendEquation `{Framework} (p : DrawPool) : DrawPool :=
  set_state (set_blendEquation BlendEquation_ADD (m_state p)) p.

(** [[
    void flush()
    {
        m_objectsByhash.clear();
        if (m_currentFloor < ARR_MAX_Z - 1)
            ++m_currentFloor;
    }
    ]]
    The comparison is made on [int] after promotion, the increment on
    [uint8_t]. *)
Definition flush `{Framework} (p : DrawPool) : DrawPool :=
  let p := set_objectsByhash ∅ p in
  if m_currentFloor p <? ARR_MAX_Z - 1
  then set_currentFloor (wrap8 (m_currentFloor p + 1)) p
  else p.

(** ** The members whose bodies are in [drawpool.cpp] *)

(** Modelled from the spec: the body of [DrawPool::canRepaint(bool)], which
    the header only declares. "True if the pool's generation counters
    disagree or if a refresh timer elapsed; as a side effect, when
    [autoUpdateStatus] is set, brings the counters into agreement
    (acknowledging the repaint)." Whether the refresh timer has elapsed is
    an input of the call. The acknowledgment overwrites the counter that
    [repaint] writes, [m_status.first], with the other one. *)
Definition canRepaint `{Framework} (autoUpdateStatus timerElapsed : bool) (p : DrawPool) : DrawPool * bool :=
  let disagree := negb (fst (m_status p) =? snd (m_status p)) in
  let p' := if autoUpdateStatus then set_status (snd (m_status p), snd (m_status p)) p else p in
  (p', disagree || timerElapsed).

(** [bool canRepaint() { return canRepaint(false); }] *)
Definition canRepaint_default `{Framework} (timerElapsed : bool) (p : DrawPool) : DrawPool * bool :=
  canRepaint false timerElapsed p.

(** Modelled from the spec: the body of [DrawPool::resetState()], which the
    header only declares. "Restore the current PaintState's fields to
    defaults (color=white, opacity=1, clip=none, shader=none,
    composition=Normal, blend=Add)." The five fields that have a reset
    member of their own go through it. *)
Definition resetState `{Framework} (p : DrawPool) : DrawPool :=
  let p := resetOpacity p in
  let p := resetClipRect p in
  let p := resetShaderProgram p in
  let p := resetCompositionMode p in
  let p := resetBlendEquation p in
  set_state (set_color Color_white (m_state p)) p.

(** Modelled from the spec: the hashes of [DrawPool::updateHash], which the
    header only declares: "a state hash over the active PaintState
    (excluding the closure) and a method hash over the geometry payload",
    and the way the two are combined into one key of the hash index. *)
Class Hashing `{Framework} := {
  hash_state : PoolState -> Z;
  hash_method : DrawMethod -> Z;
  hash_combine : Z -> Z -> Z;
}.

(** The state hash never sees the closure: it is taken on the state with
    the closure emptied. *)
Definition updateHash `{Hashing} (s : PoolState) (m : DrawMethod) : Z * Z :=
  (hash_state (set_action None s), hash_method m).

(** The key of a call in the hash index. *)
Definition combined_hash `{Hashing} (s : PoolState) (m : DrawMethod) : Z :=
  hash_combine (fst (updateHash s m)) (snd (updateHash s m)).

(** The paint state a call is emitted with: the pool's current state with
    the colour and the texture the call brings. *)
Definition snapshot `{Framework} (c : Color) (t : ptr) (p : DrawPool) : PoolState :=
  set_texture t (set_color c (m_state p)).

(** Step 2 of [add], the test of the dedup fast path: "an agroup-enabled
    DrawBuffer is supplied and its validation succeeds and an entry with
    the combined hash already exists in the pool's current-frame hash
    index". The outcome of the validation is what [validate] returns,
    [isValid()]. *)
Definition dedup_fast_path `{Framework} (supplied : option DrawBuffer) (index : gmap Z DrawObject) (h : Z) : bool :=
  match supplied with
  | Some b => m_agroup b && isValid b && bool_decide (is_Some (index !! h))
  | None => false
  end.

(** Step 3 of [add]: "the immediately preceding DrawCall in the active
    bucket has an equal PaintState (structural equality) and the geometry
    is batchable into the same draw mode": the call asks for the draw mode
    of the preceding DrawCall, and that is the mode [addMethod] leaves a
    batch in. The result is the bucket with the method appended to its
    last DrawCall, or [None] when the call cannot be batched. *)
Definition batch_into_last `{Framework} (s : PoolState) (m : DrawMethod) (dm : DrawMode) (l : list DrawObject) : option (list DrawObject) :=
  match reverse l with
  | prev :: before =>
      match state prev with
      | Some s0 =>
          if PoolState_eq s0 s && DrawMode_eq (drawMode prev) dm && DrawMode_eq dm DrawMode_TRIANGLES
          then match addMethod m prev with
               | Some prev' => Some (reverse before ++ [prev'])
               | None => None
               end
          else None
      | None => None
      end
  | [] => None
  end.

(** Step 5 of [add]: "append the combined hash to its hash history and mark
    it validated". The mark is the position of the hash just recorded; a
    temporary buffer keeps its sentinel, it is never cached. *)
Definition record_hash `{Framework} (h : Z) (b : DrawBuffer) : DrawBuffer :=
  {| m_i := if isTemporary b then m_i b else Z.of_nat (length (m_hashs b));
     m_agroup := m_agroup b; m_order := m_order b; m_ref := m_ref b;
     m_hashs := m_hashs b ++ [h]; m_coords := m_coords b |}.

(** Modelled from the spec: the body of [DrawPool::add], which the header
    only declares; the five steps of the emission primitive. The draw
    buffers live in a store, by address, because a buffer is shared between
    its owner and the pool: the call works on the pool and on the store.
    Step 4 enters the DrawCall it opens in the hash index under the
    combined hash. None of the five steps reads [coordsBuffer]. *)
Definition add `{Hashing} (c : Color) (t : ptr) (m : DrawMethod) (dm : DrawMode)
    (drawBuffer coordsBuffer : ptr) (w : DrawPool * gmap Z DrawBuffer) : DrawPool * gmap Z DrawBuffer :=
  let p := fst w in
  let store := snd w in
  let s := snapshot c t p in
  let h := combined_hash s m in
  let supplied := match drawBuffer with Some a => store !! a | None => None end in
  if dedup_fast_path supplied (m_objectsByhash p) h then w
  else
    let floor := m_currentFloor p in
    let order := m_currentOrder p in
    let l := objects_at (m_objects p) floor order in
    let p' :=
      match batch_into_last s m dm l with
      | Some l' => set_objects (<[(floor, order) := l']> (m_objects p)) p
      | None =>
          let o := {| drawMode := dm; buffer := drawBuffer; state := Some s;
                      method := Some m; methods := None; object_action := None |} in
          set_objectsByhash (<[h := o]> (m_objectsByhash p))
            (set_objects (<[(floor, order) := l ++ [o]]> (m_objects p)) p)
      end in
    let store' :=
      match drawBuffer, supplied with
      | Some a, Some b => <[a := record_hash h b]> store
      | _, _ => store
      end in
    (p', store').

(** One emission request, as a value. *)
Record AddCall `{Framework} := mkAddCall {
  call_color : Color;
  call_texture : ptr;
  call_method : DrawMethod;
  call_drawMode : DrawMode;
  call_drawBuffer : ptr;
  call_coordsBuffer : ptr;
}.

Definition add_call `{Hashing} (w : DrawPool * gmap Z DrawBuffer) (c : AddCall) : DrawPool * gmap Z DrawBuffer :=
  add (call_color c) (call_texture c) (call_method c) (call_drawMode c)
      (call_drawBuffer c) (call_coordsBuffer c) w.


(** The number of DrawCalls a pool holds, over all its buckets. *)
Definition drawcall_count `{Framework} (p : DrawPool) : nat :=
  map_fold (fun _ l n => (length l + n)%nat) 0%nat (m_objects p).

(** A request that meets the conditions of the fast path on a pool and a
    store: it brings a buffer of the store that is not temporary and has
    [agroup] set, the validation of the buffer against the reference point
    [r] of the caller succeeds and leaves the buffer as it is (the
    reference point is unchanged), and the combined hash of the request is
    in the index. *)
Definition dedup_hit `{Hashing} (w : DrawPool * gmap Z DrawBuffer) (c : AddCall) : Prop :=
  exists a b r,
    call_drawBuffer c = Some a /\ snd w !! a = Some b /\
    isTemporary b = false /\ m_agroup b = true /\ validate r b = (b, true) /\
    is_Some (m_objectsByhash (fst w) !!
               combined_hash (snapshot (call_color c) (call_texture c) (fst w)) (call_method c)).




(** ** A concrete framework

    The definitions above run on any [Framework]. This one is small enough
    to evaluate them by hand: matrices and enumerations are integer tags,
    a colour is its four channels, a rectangle its two corners, a point its
    two coordinates. *)

Definition quad_eq (a b : Z * Z * Z * Z) : bool :=
  let '(a1, a2, a3, a4) := a in
  let '(b1, b2, b3, b4) := b in
  (a1 =? b1) && (a2 =? b2) && (a3 =? b3) && (a4 =? b4).

Definition pair_ne (a b : Z * Z) : bool :=
  negb ((fst a =? fst b) && (snd a =? snd b)).

Definition demo_framework : Framework :=
  {| MAX_Z := 15;
     Matrix3 := Z; Matrix3_eq := Z.eqb; Matrix3_null := 0;
     Color := Z * Z * Z * Z; Color_eq := quad_eq;
     Color_null := (255, 255, 255, 255); Color_white := (255, 255, 255, 255);
     Rect := Z * Z * Z * Z; Rect_eq := quad_eq; Rect_null := (0, 0, -1, -1);
     Point := Z * Z; Point_ne := pair_ne; Point_null := (0, 0);
     CompositionMode := Z; CompositionMode_eq := Z.eqb; CompositionMode_NORMAL := 0;
     BlendEquation := Z; BlendEquation_eq := Z.eqb; BlendEquation_ADD := 0;
     DrawMode := Z; DrawMode_eq := Z.eqb; DrawMode_TRIANGLES := 0;
     Timer := Z; Timer_null := 0 |}.

Definition demo_hashing : @Hashing demo_framework :=
  {| hash_state := fun s => (@transformMatrix demo_framework s + 3 * @compositionMode demo_framework s
                             + 5 * @blendEquation demo_framework s) mod (SIZE_MAX + 1);
     hash_method := fun m => @intValue demo_framework m;
     hash_combine := fun a b => (31 * a + b) mod (SIZE_MAX + 1) |}.

(** Sample values over the concrete framework. *)

(** A buffer that was built once against the origin: valid, not temporary. *)
Definition demo_buffer : @DrawBuffer demo_framework :=
  @mkDrawBuffer demo_framework 0 true FIRST (0, 0) [7] None.

(** A rectangle method, [Rect{src=(0,0,32,32), dst=(10,10,32,32)}]. *)
Definition demo_rect (tag : Z) : @DrawMethod demo_framework :=
  @mkDrawMethod demo_framework RECT (Some ((0, 0, 32, 32), (10, 10, 32, 32))) None None tag.

(** A DrawCall holding one rectangle, drawn with the default state. *)
Definition demo_object : @DrawObject demo_framework :=
  @DrawObject_of_method demo_framework 0 (@PoolState_new demo_framework) (demo_rect 1).

(** A fresh pool, and the same pool with one DrawCall in its first bucket. *)
Definition demo_pool : @DrawPool demo_framework := @DrawPool_new demo_framework.

Definition demo_pool_drawn : @DrawPool demo_framework :=
  @set_objects demo_framework {[ (0, 0) := [demo_object] ]} demo_pool.

(** A store with one fresh buffer at address 1, and a request that brings
    it. *)
Definition demo_store : gmap Z (@DrawBuffer demo_framework) :=
  {[ 1 := @DrawBuffer_new demo_framework FIRST true ]}.

Definition demo_call : @AddCall demo_framework :=
  @mkAddCall demo_framework (255, 255, 255, 255) None (demo_rect 1) 0 (Some 1) None.

(** The pool and the store after the request was submitted once. *)
Definition demo_first_frame : @DrawPool demo_framework * gmap Z (@DrawBuffer demo_framework) :=
  @add_call demo_framework demo_hashing (demo_pool, demo_store) demo_call.





(** ** The other members of [DrawBuffer] *)

(** [[
    inline CoordsBuffer* getCoords()
    {
        return (m_coords ? m_coords : m_coords = std::make_shared<CoordsBuffer>()).get();
    }
    ]]
    [fresh] is the address [std::make_shared] gives when it is called. The
    result is the buffer after the call and the address returned. *)
Definition getCoords `{Framework} (fresh : Z) (b : DrawBuffer) : DrawBuffer * Z :=
  match m_coords b with
  | Some a => (b, a)
  | None =>
      ({| m_i := m_i b; m_agroup := m_agroup b; m_order := m_order b;
          m_ref := m_ref b; m_hashs := m_hashs b; m_coords := Some fresh |}, fresh)
  end.

(** A run of [addMethod] calls on one DrawCall, first method first; the
    run is undefined as soon as one call is. *)
Fixpoint addMethods `{Framework} (ms : list DrawMethod) (o : DrawObject) : option DrawObject :=
  match ms with
  | [] => Some o
  | m :: ms' =>
      match addMethod m o with
      | Some o' => addMethods ms' o'
      | None => None
      end
  end.

(** The five reset members of the pool, as values, and a run of them,
    first call first. *)
Inductive ResetOp : Type :=
  | ROpacity
  | RClipRect
  | RShaderProgram
  | RCompositionMode
  | RBlendEquation.

Definition apply_reset `{Framework} (p : DrawPool) (op : ResetOp) : DrawPool :=
  match op with
  | ROpacity => resetOpacity p
  | RClipRect => resetClipRect p
  | RShaderProgram => resetShaderProgram p
  | RCompositionMode => resetCompositionMode p
  | RBlendEquation => resetBlendEquation p
  end.

Definition apply_resets `{Framework} (ops : list ResetOp) (p : DrawPool) : DrawPool :=
  fold_left apply_reset ops p.

Definition ResetOp_eq (a b : ResetOp) : bool :=
  match a, b with
  | ROpacity, ROpacity | RClipRect, RClipRect | RShaderProgram, RShaderProgram
  | RCompositionMode, RCompositionMode | RBlendEquation, RBlendEquation => true
  | _, _ => false
  end.

(** Whether a run calls a given reset member. *)
Definition calls (op : ResetOp) (ops : list ResetOp) : bool :=
  existsb (ResetOp_eq op) ops.

(** ** UIWidget: the children of a widget and its state flags

    [framework/ui/uiwidget.h] and [uiwidget.cpp]. A widget is kept with the
    data members that the members embedded here read and write. A
    [UIWidgetPtr] is an address, and [UIWidgetList] is a
    [std::deque<UIWidgetPtr>]. *)

(** Conversion of an integer to [size_t]. *)
Definition to_size_t (z : Z) : Z := z mod (SIZE_MAX + 1).

(** Conversion of an integer to [int], 32 bits in two's complement. *)
Definition to_int (z : Z) : Z := (z + 2 ^ 31) mod 2 ^ 32 - 2 ^ 31.

Record UIWidget := mkUIWidget {
  m_parent : ptr;                (* UIWidgetPtr m_parent *)
  m_children : list ptr;         (* UIWidgetList m_children *)
  m_lockedChildren : list ptr;   (* UIWidgetList m_lockedChildren *)
  m_focusedChild : ptr;          (* UIWidgetPtr m_focusedChild *)
  m_childIndex : Z;              (* int m_childIndex{ -1 } *)
  m_states : Z;                  (* int m_states{ Fw::DefaultState } *)
}.

(** [bool hasChildren() { return !m_children.empty(); }] *)
Definition hasChildren (w : UIWidget) : bool :=
  negb (match m_children w with [] => true | _ => false end).

(** [[
    UIWidgetPtr UIWidget::getChildByIndex(int index)
    {
        index = index <= 0 ? (m_children.size() + index) : index - 1;
        if (index >= 0 && static_cast<size_t>(index) < m_children.size())
            return m_children[index];

        return nullptr;
    }
    ]]
    The conditional expression has type [size_t]: [m_children.size() +
    index] is a [size_t] sum, [index - 1] is converted, and the value is
    stored back into the [int]. The result is [None] where the member would
    read outside the deque, and the pointer returned otherwise. *)
Definition getChildByIndex (index : Z) (w : UIWidget) : option ptr :=
  let size := Z.of_nat (length (m_children w)) in
  let index := to_int (if index <=? 0 then to_size_t (size + to_size_t index)
                       else to_size_t (index - 1)) in
  if (0 <=? index) && (to_size_t index <? size)
  then vector_at (m_children w) (to_size_t index)
  else Some None.

(** [UIWidgetPtr getFirstChild() { return getChildByIndex(1); }] *)
Definition getFirstChild (w : UIWidget) : option ptr := getChildByIndex 1 w.

(** [UIWidgetPtr getLastChild() { return getChildByIndex(-1); }] *)
Definition getLastChild (w : UIWidget) : option ptr := getChildByIndex (-1) w.

(** [[
    UIWidgetPtr UIWidget::getChildAfter(const UIWidgetPtr& relativeChild)
    {
        return relativeChild->m_childIndex == m_children.size() ?
            nullptr : m_children[relativeChild->m_childIndex];
    }
    ]]
    [relativeChild] is given by the widget it points to. The comparison and
    the index are taken on [size_t]. *)
Definition getChildAfter (relativeChild : UIWidget) (w : UIWidget) : option ptr :=
  if to_size_t (m_childIndex relativeChild) =? Z.of_nat (length (m_children w))
  then Some None
  else vector_at (m_children w) (to_size_t (m_childIndex relativeChild)).

(** [[
    UIWidgetPtr UIWidget::getChildBefore(const UIWidgetPtr& relativeChild)
    {
        return relativeChild->m_childIndex <= 1 ? nullptr : m_children[relativeChild->m_childIndex - 2];
    }
    ]] *)
Definition getChildBefore (relativeChild : UIWidget) (w : UIWidget) : option ptr :=
  if m_childIndex relativeChild <=? 1
  then Some None
  else vector_at (m_children w) (to_size_t (m_childIndex relativeChild - 2)).

(** [[
    bool UIWidget::hasState(Fw::WidgetState state)
    {
        if (state == Fw::InvalidState)
            return false;

        return (m_states & state);
    }
    ]]
    [InvalidState] is the enumerator of [Fw::WidgetState] in
    [framework/const.h]. *)
Definition hasState (InvalidState : Z) (state : Z) (w : UIWidget) : bool :=
  if state =? InvalidState then false
  else negb (Z.land (m_states w) state =? 0).

(** [m_states = v] *)
Definition set_states (v : Z) (w : UIWidget) : UIWidget :=
  {| m_parent := m_parent w; m_children := m_children w;
     m_lockedChildren := m_lockedChildren w; m_focusedChild := m_focusedChild w;
     m_childIndex := m_childIndex w; m_states := v |}.

(** [[
    bool UIWidget::setState(Fw::WidgetState state, bool on)
    {
        if (state == Fw::InvalidState)
            return false;

        const int oldStates = m_states;
        if (on)
            m_states |= state;
        else
            m_states &= ~state;

        if (oldStates == m_states)
            return false;

        updateStyle();
        return true;
    }
    ]]
    [updateStyle] is the member of that name, taken as it is: a change of
    the widget. *)
Definition setState (InvalidState : Z) (updateStyle : UIWidget -> UIWidget)
    (state : Z) (on : bool) (w : UIWidget) : UIWidget * bool :=
  if state =? InvalidState then (w, false)
  else
    let oldStates := m_states w in
    let w' := if on then set_states (Z.lor (m_states w) state) w
              else set_states (Z.land (m_states w) (Z.lnot state)) w in
    if oldStates =? m_states w' then (w', false)
    else (updateStyle w', true).

(** [[
    bool isFirstChild() { return m_parent && m_childIndex == 1; }
    bool isLastChild() { return m_parent && m_childIndex == m_parent->m_children.size(); }
    bool isMiddleChild() { return !isFirstChild() && !isLastChild(); }
    ]]
    [parent] is the widget [m_parent] points to, when it is not null. *)
Definition isFirstChild (parent : option UIWidget) (w : UIWidget) : bool :=
  match parent with
  | Some _ => m_childIndex w =? 1
  | None => false
  end.

Definition isLastChild (parent : option UIWidget) (w : UIWidget) : bool :=
  match parent with
  | Some pw => to_size_t (m_childIndex w) =? Z.of_nat (length (m_children pw))
  | None => false
  end.

Definition isMiddleChild (parent : option UIWidget) (w : UIWidget) : bool :=
  negb (isFirstChild parent w) && negb (isLastChild parent w).

(** The widgets below a widget, as the tree that the [m_children] lists
    span: a node is the address of a widget and the subtrees of its
    children, in the order of [m_children]. *)
#[local] Unset Elimination Schemes.
Inductive WidgetTree : Type :=
  | WidgetNode (self : Z) (children : list WidgetTree).
#[local] Set Elimination Schemes.

Definition tree_self (t : WidgetTree) : Z :=
  match t with WidgetNode a _ => a end.

Definition tree_children (t : WidgetTree) : list WidgetTree :=
  match t with WidgetNode _ cs => cs end.

(** [[
    UIWidgetList UIWidget::recursiveGetChildren()
    {
        UIWidgetList children;
        for (const UIWidgetPtr& child : m_children) {
            if (const UIWidgetList& subChildren = child->recursiveGetChildren(); !subChildren.empty())
                children.insert(children.end(), subChildren.begin(), subChildren.end());

            children.push_back(child);
        }

        return children;
    }
    ]]
    The inner function is the loop, with [children] as it stands before
    the child at the head of the list is visited. *)
Fixpoint recursiveGetChildren (t : WidgetTree) : list Z :=
  match t with
  | WidgetNode _ cs =>
      (fix loop (children : list Z) (cs : list WidgetTree) {struct cs} : list Z :=
         match cs with
         | [] => children
         | child :: cs' =>
             let subChildren := recursiveGetChildren child in
             let children := match subChildren with
                             | [] => children
                             | _ :: _ => children ++ subChildren
                             end in
             loop (children ++ [tree_self child]) cs'
         end) [] cs
  end.

(** The number of widgets of a tree, its root included. *)
Fixpoint tree_size (t : WidgetTree) : nat :=
  match t with
  | WidgetNode _ cs =>
      S ((fix sum (cs : list WidgetTree) : nat :=
            match cs with
            | [] => 0%nat
            | c :: cs' => (tree_size c + sum cs')%nat
            end) cs)
  end.

(** A widget with two children, the first of which has two children of its
    own. *)
Definition demo_tree : WidgetTree :=
  WidgetNode 1 [WidgetNode 2 [WidgetNode 4 []; WidgetNode 5 []]; WidgetNode 3 []].

(** Sample widgets: a parent with three children at addresses 11, 12, 13,
    and its second child. *)
Definition demo_widget : UIWidget :=
  mkUIWidget None [Some 11; Some 12; Some 13] [] None (-1) 0.

Definition demo_child : UIWidget :=
  mkUIWidget (Some 10) [] [] None 2 0.

(** * Properties *)

(** ** DrawBuffer: validation and the temporary sentinel *)

Section DrawBufferProperties.
Context `{Framework}.

Lemma isValid_invalidate (b : DrawBuffer) : isValid (invalidate b) = false.
Proof. unfold isValid, invalidate; cbn. reflexivity. Qed.

Lemma isTemporary_invalidate (b : DrawBuffer) : isTemporary (invalidate b) = false.
Proof. unfold isTemporary, invalidate; cbn. reflexivity. Qed.

Lemma isTemporary_not_valid (b : DrawBuffer) : isTemporary b = true -> isValid b = false.
Proof.
  unfold isTemporary, isValid. intros Ht.
  apply Z.eqb_eq in Ht. rewrite Ht. reflexivity.
Qed.

Lemma isValid_not_temporary (b : DrawBuffer) : isValid b = true -> isTemporary b = false.
Proof.
  intros Hv. destruct (isTemporary b) eqn:Ht; [|reflexivity].
  apply isTemporary_not_valid in Ht. congruence.
Qed.

Lemma validate_changed (p : Point) (b : DrawBuffer) :
  Point_ne (m_ref b) p = true -> validate p b = (invalidate (set_ref p b), false).
Proof.
  intros Hne. unfold validate. rewrite Hne. cbn zeta.
  rewrite isValid_invalidate. reflexivity.
Qed.

Lemma validate_same (p : Point) (b : DrawBuffer) :
  Point_ne (m_ref b) p = false -> validate p b = (b, isValid b).
Proof. intros Hne. unfold validate. rewrite Hne. reflexivity. Qed.

(** [validate] answers true exactly when the reference point is the stored
    one and the buffer is valid; the buffer is then left as it was. *)
Lemma validate_true_iff (p : Point) (b : DrawBuffer) :
  snd (validate p b) = true <-> Point_ne (m_ref b) p = false /\ isValid b = true.
Proof.
  destruct (Point_ne (m_ref b) p) eqn:Hne.
  - rewrite (validate_changed _ _ Hne). cbn. split; [discriminate | intros [? _]; discriminate].
  - rewrite (validate_same _ _ Hne). cbn. split; [intros ->; split; reflexivity | intros [_ ?]; assumption].
Qed.

Lemma dedup_fast_path_invalid (b : DrawBuffer) (index : gmap Z DrawObject) (h : Z) :
  isValid b = false -> dedup_fast_path (Some b) index h = false.
Proof.
  intros Hv. unfold dedup_fast_path. rewrite Hv.
  rewrite andb_false_r. reflexivity.
Qed.

(** C2: for every buffer [b] and point [p]: when [p] differs from the stored
    reference point, [validate p] stores [p] as the reference, invalidates
    the buffer and returns false, so that a following [add] cannot take the
    dedup fast path with it; when [p] is the stored reference point,
    [validate p] leaves the buffer as it was and returns whether it is
    valid. *)
Theorem validate_reference_point (b : DrawBuffer) (p : Point) :
  (Point_ne (m_ref b) p = true ->
     validate p b = (invalidate (set_ref p b), false) /\
     m_ref (fst (validate p b)) = p /\
     m_i (fst (validate p b)) = -1 /\
     isValid (fst (validate p b)) = false /\
     forall index h, dedup_fast_path (Some (fst (validate p b))) index h = false) /\
  (Point_ne (m_ref b) p = false ->
     validate p b = (b, isValid b)).
Proof.
  split; intros Hne.
  - rewrite (validate_changed _ _ Hne). cbn [fst].
    split; [reflexivity|]. split; [reflexivity|]. split; [reflexivity|].
    split; [apply isValid_invalidate|].
    intros index h. apply dedup_fast_path_invalid, isValid_invalidate.
  - exact (validate_same _ _ Hne).
Qed.

(** C9: a buffer made by [createTemporaryBuffer] fails every validation:
    [validate p] returns false whether [p] is the stored reference point
    (the sentinel -2 is not above -1) or not (the buffer is invalidated
    first), so it never opens the dedup fast path of [add]. *)
Theorem temporary_never_validates (order : DrawOrder) (p : Point) :
  snd (validate p (createTemporaryBuffer order)) = false /\
  isValid (fst (validate p (createTemporaryBuffer order))) = false /\
  forall index h,
    dedup_fast_path (Some (fst (validate p (createTemporaryBuffer order)))) index h = false.
Proof.
  assert (Hv : isValid (fst (validate p (createTemporaryBuffer order))) = false).
  { destruct (Point_ne (m_ref (createTemporaryBuffer order)) p) eqn:Hne.
    - rewrite (validate_changed _ _ Hne). apply isValid_invalidate.
    - rewrite (validate_same _ _ Hne). reflexivity. }
  split; [|split].
  - unfold validate in *. cbn zeta in *. exact Hv.
  - exact Hv.
  - intros index h. apply dedup_fast_path_invalid, Hv.
Qed.

Lemma apply_ops_cons (op : BufferOp) (ops : list BufferOp) (b : DrawBuffer) :
  apply_ops (op :: ops) b = apply_ops ops (apply_op b op).
Proof. reflexivity. Qed.

(** Once the counter holds -1, no sequence of calls moves it. *)
Lemma apply_ops_invalid (ops : list BufferOp) :
  forall b : DrawBuffer, m_i b = -1 -> m_i (apply_ops ops b) = -1.
Proof.
  induction ops as [|op ops IH]; intros b Hb; [exact Hb|].
  rewrite apply_ops_cons. apply IH.
  destruct op as [p|]; cbn; [|reflexivity].
  destruct (Point_ne (m_ref b) p); [reflexivity | exact Hb].
Qed.

(** While the counter holds the sentinel, it survives exactly the calls
    that [keeps_sentinel] accepts. *)
Lemma apply_ops_temporary (ops : list BufferOp) :
  forall b : DrawBuffer, m_i b = -2 ->
    isTemporary (apply_ops ops b) = forallb (keeps_sentinel (m_ref b)) ops.
Proof.
  induction ops as [|op ops IH]; intros b Hb.
  - cbn. unfold isTemporary. rewrite Hb. reflexivity.
  - rewrite apply_ops_cons. cbn [forallb].
    destruct op as [p|]; cbn [apply_op keeps_sentinel].
    + destruct (Point_ne (m_ref b) p) eqn:Hne.
      * rewrite (validate_changed _ _ Hne). cbn [fst negb andb].
        unfold isTemporary. rewrite apply_ops_invalid; reflexivity.
      * rewrite (validate_same _ _ Hne). cbn [fst negb andb]. apply IH, Hb.
    + cbn [andb]. unfold isTemporary. rewrite apply_ops_invalid; reflexivity.
Qed.

(** [validate] and [invalidate] never make a buffer valid. *)
Lemma apply_ops_never_valid (ops : list BufferOp) :
  forall b : DrawBuffer, isValid b = false -> isValid (apply_ops ops b) = false.
Proof.
  induction ops as [|op ops IH]; intros b Hb; [exact Hb|].
  rewrite apply_ops_cons. apply IH.
  destruct op as [p|]; cbn [apply_op]; [|apply isValid_invalidate].
  destruct (Point_ne (m_ref b) p) eqn:Hne.
  - rewrite (validate_changed _ _ Hne). apply isValid_invalidate.
  - rewrite (validate_same _ _ Hne). exact Hb.
Qed.

(** C7, as the code has it: a buffer made by [createTemporaryBuffer] carries
    the sentinel -2, which is neither the invalid mark -1 nor a valid
    position; under every sequence of [validate] and [invalidate] calls it
    never becomes valid; it stays temporary exactly as long as every call
    is a [validate] against the reference point it was created with. *)
Theorem temporary_sentinel_lifetime (order : DrawOrder) (ops : list BufferOp) :
  isTemporary (createTemporaryBuffer order) = true /\
  isValid (createTemporaryBuffer order) = false /\
  isValid (apply_ops ops (createTemporaryBuffer order)) = false /\
  isTemporary (apply_ops ops (createTemporaryBuffer order))
    = forallb (keeps_sentinel Point_null) ops.
Proof.
  split; [reflexivity|]. split; [reflexivity|]. split.
  - apply apply_ops_never_valid. reflexivity.
  - rewrite apply_ops_temporary; reflexivity.
Qed.

End DrawBufferProperties.

(** C7, as stated, fails: one [validate] against a point other than the
    origin, or one [invalidate], overwrites the sentinel of a temporary
    buffer; what is left is the plain invalid buffer a constructor call and
    the same [validate] would have given. *)
Lemma temporary_sentinel_overwritten :
  isTemporary (@createTemporaryBuffer demo_framework FIRST) = true /\
  isTemporary (apply_ops [@OpValidate demo_framework (1, 0)]
                 (@createTemporaryBuffer demo_framework FIRST)) = false /\
  m_i (apply_ops [@OpValidate demo_framework (1, 0)]
         (@createTemporaryBuffer demo_framework FIRST)) = -1 /\
  apply_ops [@OpValidate demo_framework (1, 0)] (@createTemporaryBuffer demo_framework FIRST)
    = apply_ops [@OpValidate demo_framework (1, 0)] (@DrawBuffer_new demo_framework FIRST true) /\
  isTemporary (apply_ops [@OpInvalidate demo_framework]
                 (@createTemporaryBuffer demo_framework FIRST)) = false.
Proof. repeat split. Qed.

Lemma validate_reference_point_witness :
  (pair_ne (0, 0) (1, 0) = true /\
   @validate demo_framework (1, 0) demo_buffer
     = (@invalidate demo_framework (@set_ref demo_framework (1, 0) demo_buffer), false)) /\
  (pair_ne (0, 0) (0, 0) = false /\
   @validate demo_framework (0, 0) demo_buffer = (demo_buffer, true)).
Proof.
  split; (split; [reflexivity|]).
  - exact (proj1 (proj1 (@validate_reference_point demo_framework demo_buffer (1, 0)) eq_refl)).
  - exact (proj2 (@validate_reference_point demo_framework demo_buffer (0, 0)) eq_refl).
Defined.

(** ** PoolState: structural equality *)

Section PoolStateProperties.
Context `{Framework}.

Lemma PoolState_eq_set_action (a1 a2 : Closure) (s1 s2 : PoolState) :
  PoolState_eq (set_action a1 s1) (set_action a2 s2) = PoolState_eq s1 s2.
Proof. unfold PoolState_eq, set_action. cbn. reflexivity. Qed.

(** C4: two states compare equal exactly when their transform matrix,
    colour, opacity, composition mode, blend equation, clip rectangle,
    texture and shader program compare equal, field by field; the closure
    has no part in the comparison, whatever closures the two states hold. *)
Theorem PoolState_eq_structural (s1 s2 : PoolState) :
  (PoolState_eq s1 s2 = true <->
     Matrix3_eq (transformMatrix s1) (transformMatrix s2) = true /\
     Color_eq (color s1) (color s2) = true /\
     PrimFloat.eqb (opacity s1) (opacity s2) = true /\
     CompositionMode_eq (compositionMode s1) (compositionMode s2) = true /\
     BlendEquation_eq (blendEquation s1) (blendEquation s2) = true /\
     Rect_eq (clipRect s1) (clipRect s2) = true /\
     ptr_eq (texture s1) (texture s2) = true /\
     ptr_eq (shaderProgram s1) (shaderProgram s2) = true) /\
  (forall a1 a2 : Closure,
     PoolState_eq (set_action a1 s1) (set_action a2 s2) = PoolState_eq s1 s2).
Proof.
  split.
  - unfold PoolState_eq. rewrite !andb_true_iff. tauto.
  - intros a1 a2. apply PoolState_eq_set_action.
Qed.

End PoolStateProperties.

(** ** DrawObject: batching keeps the submission order *)

Section DrawObjectProperties.
Context `{Framework}.

(** On a DrawCall that already holds a list, the new method goes last. *)
Lemma addMethod_appends (o : DrawObject) (ms : list DrawMethod) (m : DrawMethod) :
  methods o = Some ms ->
  exists o', addMethod m o = Some o' /\ methods o' = Some (ms ++ [m]) /\
             state o' = state o /\ buffer o' = buffer o.
Proof.
  intros Hms. unfold addMethod. rewrite Hms.
  eexists. split; [reflexivity|]. cbn. auto.
Qed.

(** [addMethod] has nothing to promote on a DrawCall without any method. *)
Lemma addMethod_undefined (o : DrawObject) (m : DrawMethod) :
  methods o = None -> method o = None -> addMethod m o = None.
Proof. intros Hms Hm. unfold addMethod. rewrite Hms, Hm. reflexivity. Qed.

(** The promotion of a single method to a list, with the result written
    out. *)
Lemma addMethod_single (o : DrawObject) (M1 M2 : DrawMethod) :
  method o = Some M1 ->
  methods o = None ->
  addMethod M2 o =
    Some {| drawMode := DrawMode_TRIANGLES; buffer := buffer o; state := state o;
            method := method o; methods := Some [M1; M2];
            object_action := object_action o |}.
Proof. intros Hm Hms. unfold addMethod. rewrite Hms, Hm. reflexivity. Qed.

(** C3: on a DrawCall holding the single method [M1], appending [M2] gives
    one DrawCall, the same one, whose method list is [M1; M2] in the order
    of submission; its state, buffer and closure are untouched and its draw
    mode is the batch mode. *)
Theorem addMethod_batches_in_order (o : DrawObject) (M1 M2 : DrawMethod) :
  method o = Some M1 ->
  methods o = None ->
  exists o',
    addMethod M2 o = Some o' /\
    methods o' = Some [M1; M2] /\
    method o' = Some M1 /\
    state o' = state o /\
    buffer o' = buffer o /\
    object_action o' = object_action o /\
    drawMode o' = DrawMode_TRIANGLES.
Proof.
  intros Hm Hms. eexists. split; [apply (addMethod_single _ _ _ Hm Hms)|].
  cbn. auto 10.
Qed.

(** A third method, and any further one, lands behind the first two. *)
Lemma addMethod_twice (o : DrawObject) (M1 M2 M3 : DrawMethod) :
  method o = Some M1 ->
  methods o = None ->
  exists o' o'',
    addMethod M2 o = Some o' /\ addMethod M3 o' = Some o'' /\
    methods o'' = Some [M1; M2; M3].
Proof.
  intros Hm Hms.
  pose (o' := {| drawMode := DrawMode_TRIANGLES; buffer := buffer o; state := state o;
                 method := method o; methods := Some [M1; M2];
                 object_action := object_action o |}).
  destruct (addMethod_appends o' [M1; M2] M3 eq_refl) as (o'' & Ho'' & Hl' & _).
  exists o', o''. split; [apply addMethod_single; assumption|]. split; assumption.
Qed.

(** In the bucket, the batched method stays inside the last DrawCall: the
    bucket keeps its length. *)
Lemma batch_into_last_in_place (s s0 : PoolState) (M1 M2 : DrawMethod) (dm : DrawMode)
    (l : list DrawObject) (prev : DrawObject) :
  state prev = Some s0 ->
  PoolState_eq s0 s = true ->
  DrawMode_eq (drawMode prev) dm = true ->
  DrawMode_eq dm DrawMode_TRIANGLES = true ->
  method prev = Some M1 ->
  methods prev = None ->
  exists prev',
    batch_into_last s M2 dm (l ++ [prev]) = Some (l ++ [prev']) /\
    methods prev' = Some [M1; M2] /\
    length (l ++ [prev']) = length (l ++ [prev]).
Proof.
  intros Hs Heq Hdm Htri Hm Hms.
  eexists. unfold batch_into_last.
  rewrite reverse_snoc, Hs, Heq, Hdm, Htri, (addMethod_single _ _ M2 Hm Hms). cbn [andb].
  rewrite reverse_involutive. rewrite !length_app. auto.
Qed.

End DrawObjectProperties.

Lemma addMethod_batches_in_order_witness :
  exists o',
    @addMethod demo_framework (demo_rect 2) demo_object = Some o' /\
    methods o' = Some [demo_rect 1; demo_rect 2] /\
    method o' = Some (demo_rect 1) /\
    state o' = state demo_object /\
    buffer o' = buffer demo_object /\
    object_action o' = object_action demo_object /\
    drawMode o' = @DrawMode_TRIANGLES demo_framework.
Proof.
  exact (@addMethod_batches_in_order demo_framework demo_object (demo_rect 1) (demo_rect 2)
           eq_refl eq_refl).
Defined.

(** ** DrawPool: the floor cursor and the hash index *)

Section FlushProperties.
Context `{Framework}.

Lemma flush_clears_index (p : DrawPool) : m_objectsByhash (flush p) = ∅.
Proof. unfold flush. cbn. destruct (_ <? _); reflexivity. Qed.

Lemma flush_floor (p : DrawPool) :
  m_currentFloor (flush p) =
    if m_currentFloor p <? ARR_MAX_Z - 1 then wrap8 (m_currentFloor p + 1) else m_currentFloor p.
Proof. unfold flush. cbn. destruct (_ <? _); reflexivity. Qed.

Lemma flush_keeps_objects (p : DrawPool) :
  m_objects (flush p) = m_objects p /\ m_state (flush p) = m_state p /\
  m_status (flush p) = m_status p /\ m_currentOrder (flush p) = m_currentOrder p.
Proof. unfold flush. cbn. destruct (_ <? _); auto. Qed.

(** [MAX_Z + 1] fits [uint8_t] when [MAX_Z] is below 255. *)
Lemma ARR_MAX_Z_value : 0 <= MAX_Z < 255 -> ARR_MAX_Z = MAX_Z + 1.
Proof. intros Hz. unfold ARR_MAX_Z, wrap8. apply Z.mod_small. lia. Qed.

(** Inside the array the guarded increment is a saturating one, and the
    [uint8_t] increment never wraps. *)
Lemma flush_floor_min (p : DrawPool) :
  0 <= MAX_Z < 255 ->
  0 <= m_currentFloor p <= MAX_Z ->
  m_currentFloor (flush p) = Z.min (m_currentFloor p + 1) MAX_Z.
Proof.
  intros Hz Hf. rewrite flush_floor, (ARR_MAX_Z_value Hz).
  replace (MAX_Z + 1 - 1) with MAX_Z by lia.
  destruct (Z.ltb_spec (m_currentFloor p) MAX_Z) as [Hlt|Hge].
  - unfold wrap8. rewrite Z.mod_small by lia. lia.
  - lia.
Qed.

(** C5: [flush] empties the hash index and moves the floor cursor up by
    one, stopping at the deepest floor: the new cursor is
    [min (old + 1) MAX_Z], so it stays below [MAX_Z + 1]. [MAX_Z + 1] is a
    [uint8_t] constant, and the cursor of a pool indexes an array of
    [MAX_Z + 1] floors. *)
Theorem flush_advances_floor (p : DrawPool) :
  0 <= MAX_Z < 255 ->
  0 <= m_currentFloor p <= MAX_Z ->
  m_objectsByhash (flush p) = ∅ /\
  m_currentFloor (flush p) = Z.min (m_currentFloor p + 1) MAX_Z /\
  0 <= m_currentFloor (flush p) < MAX_Z + 1.
Proof.
  intros Hz Hf.
  split; [apply flush_clears_index|].
  split; [apply flush_floor_min; assumption|].
  rewrite flush_floor_min by assumption. lia.
Qed.

(** The cursor of a pool that is only ever flushed stays inside the array:
    after [n] calls it is [min (old + n) MAX_Z]. *)
Lemma flush_iter_floor (n : nat) (p : DrawPool) :
  0 <= MAX_Z < 255 ->
  0 <= m_currentFloor p <= MAX_Z ->
  m_currentFloor (Nat.iter n flush p) = Z.min (m_currentFloor p + Z.of_nat n) MAX_Z.
Proof.
  intros Hz Hf. induction n as [|n IH].
  - cbn. lia.
  - change (Nat.iter (S n) flush p) with (flush (Nat.iter n flush p)).
    assert (Hr : 0 <= m_currentFloor (Nat.iter n flush p) <= MAX_Z) by (rewrite IH; lia).
    rewrite (flush_floor_min _ Hz Hr), IH. lia.
Qed.

(** The cursor starts inside the array, and no member of the pool other
    than [flush] moves it. *)
Lemma floor_in_range_kept (p : DrawPool) :
  m_currentFloor DrawPool_new = 0 /\
  m_currentFloor (repaint p) = m_currentFloor p /\
  m_currentFloor (resetState p) = m_currentFloor p /\
  (forall auto elapsed, m_currentFloor (fst (canRepaint auto elapsed p)) = m_currentFloor p).
Proof.
  split; [reflexivity|]. split; [reflexivity|]. split; [reflexivity|].
  intros [] elapsed; reflexivity.
Qed.

End FlushProperties.

Lemma flush_advances_floor_witness :
  m_objectsByhash (@flush demo_framework demo_pool) = ∅ /\
  m_currentFloor (@flush demo_framework demo_pool)
    = Z.min (m_currentFloor demo_pool + 1) (@MAX_Z demo_framework) /\
  0 <= m_currentFloor (@flush demo_framework demo_pool) < @MAX_Z demo_framework + 1.
Proof.
  apply (@flush_advances_floor demo_framework demo_pool); cbn; lia.
Defined.

(** ** DrawPool: repaint requests *)

Section RepaintProperties.
Context `{Framework}.

Lemma repaint_idempotent (p : DrawPool) : repaint (repaint p) = repaint p.
Proof. reflexivity. Qed.

Lemma repaint_iter (n : nat) (p : DrawPool) : Nat.iter (S n) repaint p = repaint p.
Proof.
  induction n as [|n IH]; [reflexivity|].
  change (Nat.iter (S (S n)) repaint p) with (repaint (Nat.iter (S n) repaint p)).
  rewrite IH. apply repaint_idempotent.
Qed.

Lemma canRepaint_acknowledged (elapsed : bool) (p : DrawPool) :
  fst (m_status (fst (canRepaint true elapsed p))) = snd (m_status (fst (canRepaint true elapsed p))).
Proof. reflexivity. Qed.

(** A check on agreeing counters, with no timer elapsed, answers no. *)
Lemma canRepaint_agreeing (auto : bool) (p : DrawPool) :
  fst (m_status p) = snd (m_status p) -> snd (canRepaint auto false p) = false.
Proof.
  intros Heq. unfold canRepaint. cbn [snd]. rewrite Heq, Z.eqb_refl. reflexivity.
Qed.

(** C6: any number of consecutive [repaint] calls leaves the pool as a
    single call does; the check that follows them behaves as after one
    call, it answers yes when the counters disagree or the timer elapsed,
    and it leaves the counters equal, so that the next check, with no new
    request and no timer elapsed, answers no: one acknowledgment, not one
    per request. *)
Theorem repaint_coalesces (n : nat) (elapsed : bool) (p : DrawPool) :
  Nat.iter (S n) repaint p = repaint p /\
  m_status (Nat.iter (S n) repaint p) = (1, snd (m_status p)) /\
  canRepaint true elapsed (Nat.iter (S n) repaint p) = canRepaint true elapsed (repaint p) /\
  snd (canRepaint true elapsed (Nat.iter (S n) repaint p))
    = negb (1 =? snd (m_status p)) || elapsed /\
  fst (m_status (fst (canRepaint true elapsed (Nat.iter (S n) repaint p))))
    = snd (m_status (fst (canRepaint true elapsed (Nat.iter (S n) repaint p)))) /\
  snd (canRepaint true false (fst (canRepaint true elapsed (Nat.iter (S n) repaint p)))) = false.
Proof.
  rewrite repaint_iter.
  split; [reflexivity|]. split; [reflexivity|]. split; [reflexivity|].
  split; [reflexivity|]. split; [apply canRepaint_acknowledged|].
  apply canRepaint_agreeing, canRepaint_acknowledged.
Qed.

End RepaintProperties.

(** ** DrawPool: resetting the current state *)

Section ResetProperties.
Context `{Framework}.

Lemma resetState_idempotent (p : DrawPool) : resetState (resetState p) = resetState p.
Proof. reflexivity. Qed.

(** Only the current state is touched, and in it neither the transform,
    nor the texture, nor the closure. *)
Lemma resetState_frame (p : DrawPool) :
  transformMatrix (m_state (resetState p)) = transformMatrix (m_state p) /\
  texture (m_state (resetState p)) = texture (m_state p) /\
  action (m_state (resetState p)) = action (m_state p) /\
  m_objects (resetState p) = m_objects p /\
  m_objectsByhash (resetState p) = m_objectsByhash p /\
  m_currentFloor (resetState p) = m_currentFloor p /\
  m_status (resetState p) = m_status p.
Proof. unfold resetState. cbn. auto 10. Qed.

(** C8: after [resetState] the current state has colour white, opacity 1,
    no clip rectangle, no shader program, composition mode [NORMAL] and
    blend equation [ADD]; each single reset member restores its own field
    to that default and leaves the other five as they were. *)
Theorem reset_restores_defaults (p : DrawPool) :
  (color (m_state (resetState p)) = Color_white /\
   opacity (m_state (resetState p)) = 1%float /\
   clipRect (m_state (resetState p)) = Rect_null /\
   shaderProgram (m_state (resetState p)) = None /\
   compositionMode (m_state (resetState p)) = CompositionMode_NORMAL /\
   blendEquation (m_state (resetState p)) = BlendEquation_ADD) /\
  (opacity (m_state (resetOpacity p)) = 1%float /\
   clipRect (m_state (resetClipRect p)) = Rect_null /\
   shaderProgram (m_state (resetShaderProgram p)) = None /\
   compositionMode (m_state (resetCompositionMode p)) = CompositionMode_NORMAL /\
   blendEquation (m_state (resetBlendEquation p)) = BlendEquation_ADD) /\
  (resetOpacity p = set_state (set_opacity 1%float (m_state p)) p /\
   clipRect (m_state (resetOpacity p)) = clipRect (m_state p) /\
   opacity (m_state (resetClipRect p)) = opacity (m_state p) /\
   opacity (m_state (resetShaderProgram p)) = opacity (m_state p) /\
   blendEquation (m_state (resetCompositionMode p)) = blendEquation (m_state p) /\
   compositionMode (m_state (resetBlendEquation p)) = compositionMode (m_state p)).
Proof.
  split; [|split].
  - unfold resetState, resetBlendEquation, resetCompositionMode, resetShaderProgram,
      resetClipRect, resetOpacity. cbn. auto 10.
  - unfold resetBlendEquation, resetCompositionMode, resetShaderProgram,
      resetClipRect, resetOpacity. cbn. auto 10.
  - unfold resetBlendEquation, resetCompositionMode, resetShaderProgram,
      resetClipRect, resetOpacity. cbn. auto 10.
Qed.

End ResetProperties.

(** ** DrawPool: reading the last DrawCall *)

Section LastDrawObjectProperties.
Context `{Framework}.

Lemma vector_at_out_of_range {A : Type} (v : list A) (i : Z) :
  Z.of_nat (length v) <= i -> vector_at v i = None.
Proof.
  intros Hi. unfold vector_at.
  destruct (Z.ltb_spec i (Z.of_nat (length v))) as [Hlt|_]; [lia|].
  rewrite andb_false_r. reflexivity.
Qed.

Lemma vector_at_last {A : Type} (v : list A) (x : A) :
  vector_at (v ++ [x]) (Z.of_nat (length v)) = Some x.
Proof.
  unfold vector_at. rewrite length_app. cbn [length].
  destruct (Z.leb_spec 0 (Z.of_nat (length v))) as [_|Hneg]; [|lia].
  destruct (Z.ltb_spec (Z.of_nat (length v)) (Z.of_nat (length v + 1))) as [_|Hge]; [|lia].
  cbn [andb]. rewrite Nat2Z.id. apply list_lookup_middle. reflexivity.
Qed.

(** [0 - 1] on [size_t]. *)
Lemma size_t_underflow : (0 - 1) mod (SIZE_MAX + 1) = SIZE_MAX.
Proof. reflexivity. Qed.

(** On an empty bucket the index wraps to [SIZE_MAX] and there is nothing
    to read. *)
Lemma getLastDrawObject_empty (p : DrawPool) :
  current_bucket p = [] -> getLastDrawObject p = None.
Proof.
  intros He. unfold getLastDrawObject. rewrite He.
  apply vector_at_out_of_range.
  change (Z.of_nat (length (@nil DrawObject))) with 0.
  rewrite size_t_underflow. unfold SIZE_MAX. lia.
Qed.

(** On a bucket that is not empty the read gives its last DrawCall. *)
Lemma getLastDrawObject_snoc (p : DrawPool) (l : list DrawObject) (o : DrawObject) :
  Z.of_nat (length (current_bucket p)) <= SIZE_MAX ->
  current_bucket p = l ++ [o] -> getLastDrawObject p = Some o.
Proof.
  intros Hsz Hl. unfold getLastDrawObject. rewrite Hl in *.
  rewrite length_app in *. cbn [length] in *.
  replace (Z.of_nat (length l + 1) - 1) with (Z.of_nat (length l)) by lia.
  rewrite Z.mod_small by lia.
  apply vector_at_last.
Qed.

Lemma getLastDrawObject_last (p : DrawPool) :
  Z.of_nat (length (current_bucket p)) <= SIZE_MAX ->
  getLastDrawObject p = last (current_bucket p).
Proof.
  intros Hsz. destruct (current_bucket p) as [|x l'] eqn:Hb using rev_ind.
  - apply getLastDrawObject_empty, Hb.
  - rewrite last_snoc. eapply getLastDrawObject_snoc; [rewrite Hb; exact Hsz | exact Hb].
Qed.

(** What the two readers give when asked for the last drawing, in terms of
    the last DrawCall of the bucket. *)
Lemma getOpacity_last (p : DrawPool) :
  getOpacity true p = o ← getLastDrawObject p; s ← state o; Some (opacity s).
Proof.
  unfold getOpacity. cbn [negb].
  destruct (getLastDrawObject p) as [o|]; [|reflexivity].
  cbn. destruct (state o); reflexivity.
Qed.

Lemma getClipRect_last (p : DrawPool) :
  getClipRect true p = o ← getLastDrawObject p; s ← state o; Some (clipRect s).
Proof.
  unfold getClipRect. cbn [negb].
  destruct (getLastDrawObject p) as [o|]; [|reflexivity].
  cbn. destruct (state o); reflexivity.
Qed.

Lemma last_has_state_iff (p : DrawPool) :
  Z.of_nat (length (current_bucket p)) <= SIZE_MAX ->
  last_has_state p <-> exists o s, getLastDrawObject p = Some o /\ state o = Some s.
Proof.
  intros Hsz. split.
  - intros (l & o & s & Hl & Hs). exists o, s. split; [|exact Hs].
    eapply getLastDrawObject_snoc; eauto.
  - intros (o & s & Ho & Hs).
    rewrite (getLastDrawObject_last _ Hsz) in Ho.
    apply last_Some in Ho as [l Hl]. exists l, o, s. auto.
Qed.

(** A bucket in which every DrawCall carries a state ends with one as soon
    as it is not empty. *)
Lemma last_has_state_nonempty (p : DrawPool) :
  Forall (fun o => is_Some (state o)) (current_bucket p) ->
  last_has_state p <-> current_bucket p <> [].
Proof.
  intros Hall. unfold last_has_state. split.
  - intros (l & o & s & Hl & _). rewrite Hl. intros Heq. destruct l; discriminate.
  - intros Hne. destruct (current_bucket p) as [|o l _] using rev_ind; [congruence|].
    apply Forall_app in Hall as [_ Ho]. apply Forall_singleton in Ho as [s Hs].
    exists l, o, s. auto.
Qed.

Lemma getOpacity_defined_iff (p : DrawPool) :
  Z.of_nat (length (current_bucket p)) <= SIZE_MAX ->
  is_Some (getOpacity true p) <-> last_has_state p.
Proof.
  intros Hsz. rewrite (last_has_state_iff _ Hsz), getOpacity_last.
  destruct (getLastDrawObject p) as [o|]; cbn.
  - destruct (state o) as [s|] eqn:Hs; cbn.
    + split; [intros _; exists o, s; auto | eauto].
    + split; [intros [? ?]; discriminate | intros (? & ? & [= <-] & ?); congruence].
  - split; [intros [? ?]; discriminate | intros (? & ? & ? & _); discriminate].
Qed.

Lemma getClipRect_defined_iff (p : DrawPool) :
  Z.of_nat (length (current_bucket p)) <= SIZE_MAX ->
  is_Some (getClipRect true p) <-> last_has_state p.
Proof.
  intros Hsz. rewrite (last_has_state_iff _ Hsz), getClipRect_last.
  destruct (getLastDrawObject p) as [o|]; cbn.
  - destruct (state o) as [s|] eqn:Hs; cbn.
    + split; [intros _; exists o, s; auto | eauto].
    + split; [intros [? ?]; discriminate | intros (? & ? & [= <-] & ?); congruence].
  - split; [intros [? ?]; discriminate | intros (? & ? & ? & _); discriminate].
Qed.

(** C10: [getLastDrawObject], and with it [getOpacity] and [getClipRect]
    asked for the last drawing, is defined exactly when the bucket under
    the cursor is not empty and its last DrawCall carries a state. On an
    empty bucket the index [size() - 1] wraps past the end; on a last
    DrawCall without a state the optional has nothing to read. Under the
    precondition the readers give the opacity and the clip rectangle of
    that state. Where every DrawCall of the bucket carries a state, the
    precondition is that one DrawCall has been emitted into the bucket.
    A vector holds at most [SIZE_MAX] elements. *)
Theorem getLastDrawObject_precondition (p : DrawPool) :
  Z.of_nat (length (current_bucket p)) <= SIZE_MAX ->
  (is_Some (getLastDrawObject p) <-> current_bucket p <> []) /\
  (is_Some (getOpacity true p) <-> last_has_state p) /\
  (is_Some (getClipRect true p) <-> last_has_state p) /\
  (forall l o s, current_bucket p = l ++ [o] -> state o = Some s ->
     getLastDrawObject p = Some o /\
     getOpacity true p = Some (opacity s) /\
     getClipRect true p = Some (clipRect s)) /\
  (current_bucket p = [] ->
     (Z.of_nat (length (current_bucket p)) - 1) mod (SIZE_MAX + 1) = SIZE_MAX /\
     getLastDrawObject p = None /\ getOpacity true p = None /\ getClipRect true p = None) /\
  (forall l o, current_bucket p = l ++ [o] -> state o = None ->
     getOpacity true p = None /\ getClipRect true p = None) /\
  (Forall (fun o => is_Some (state o)) (current_bucket p) ->
     (is_Some (getOpacity true p) <-> current_bucket p <> []) /\
     (is_Some (getClipRect true p) <-> current_bucket p <> [])).
Proof.
  intros Hsz.
  split; [|split; [|split; [|split; [|split; [|split]]]]].
  - rewrite (getLastDrawObject_last _ Hsz).
    destruct (current_bucket p) as [|x l'] using rev_ind.
    + cbn. split; [intros [? ?]; discriminate | congruence].
    + rewrite last_snoc. split; [intros _ Heq; destruct l'; discriminate | eauto].
  - apply getOpacity_defined_iff, Hsz.
  - apply getClipRect_defined_iff, Hsz.
  - intros l o s Hl Hs.
    assert (Ho : getLastDrawObject p = Some o) by (eapply getLastDrawObject_snoc; eauto).
    rewrite getOpacity_last, getClipRect_last, Ho. cbn. rewrite Hs. cbn. auto.
  - intros He.
    rewrite getOpacity_last, getClipRect_last, (getLastDrawObject_empty _ He), He.
    split; [apply size_t_underflow | auto].
  - intros l o Hl Hs.
    assert (Ho : getLastDrawObject p = Some o) by (eapply getLastDrawObject_snoc; eauto).
    rewrite getOpacity_last, getClipRect_last, Ho. cbn. rewrite Hs. cbn. auto.
  - intros Hall.
    rewrite (getOpacity_defined_iff _ Hsz), (getClipRect_defined_iff _ Hsz).
    split; apply last_has_state_nonempty, Hall.
Qed.

End LastDrawObjectProperties.

Lemma getLastDrawObject_precondition_witness :
  @getLastDrawObject demo_framework demo_pool_drawn = Some demo_object /\
  @getOpacity demo_framework true demo_pool_drawn = Some 1%float /\
  @getClipRect demo_framework true demo_pool_drawn = Some (0, 0, -1, -1).
Proof.
  assert (Hsz : Z.of_nat (length (@current_bucket demo_framework demo_pool_drawn)) <= SIZE_MAX)
    by (vm_compute; discriminate).
  destruct (@getLastDrawObject_precondition demo_framework demo_pool_drawn Hsz)
    as (_ & _ & _ & Hread & _).
  apply (Hread [] demo_object (@PoolState_new demo_framework)); reflexivity.
Defined.

(** ** DrawPool: the dedup fast path of [add] *)

Section AddProperties.
Context `{Hashing}.

Lemma add_fast_path (c : Color) (t : ptr) (m : DrawMethod) (dm : DrawMode)
    (drawBuffer coordsBuffer : ptr) (w : DrawPool * gmap Z DrawBuffer) :
  dedup_fast_path (match drawBuffer with Some a => snd w !! a | None => None end)
    (m_objectsByhash (fst w)) (combined_hash (snapshot c t (fst w)) m) = true ->
  add c t m dm drawBuffer coordsBuffer w = w.
Proof. intros Hfast. unfold add. cbn zeta. rewrite Hfast. reflexivity. Qed.

Lemma dedup_hit_noop (w : DrawPool * gmap Z DrawBuffer) (c : AddCall) :
  dedup_hit w c -> add_call w c = w.
Proof.
  intros (a & b & r & Ha & Hb & _ & Hg & Hv & Hi).
  assert (Hvalid : isValid b = true).
  { apply (validate_true_iff r b). rewrite Hv. reflexivity. }
  unfold add_call. apply add_fast_path.
  rewrite Ha, Hb. unfold dedup_fast_path. rewrite Hg, Hvalid. cbn [andb].
  apply bool_decide_eq_true. exact Hi.
Qed.


(** Without an entry in the index there is no fast path: after [flush] the
    first request of the next floor is never skipped. *)
Lemma flush_disables_fast_path (p : DrawPool) (supplied : option DrawBuffer) (h : Z) :
  dedup_fast_path supplied (m_objectsByhash (flush p)) h = false.
Proof.
  rewrite flush_clears_index. unfold dedup_fast_path.
  destruct supplied as [b|]; [|reflexivity].
  rewrite lookup_empty, bool_decide_eq_false_2; [apply andb_false_r|].
  intros [? ?]; discriminate.
Qed.


(** The protocol of a caller, twice: the buffer is not valid yet for the
    reference point [r] it holds; the request opens a DrawCall and records
    its hash; from then on the validation against [r] succeeds, the request
    is a hit and submitting it again changes nothing. *)
Lemma add_repeat_is_noop (c : AddCall) (p : DrawPool) (store : gmap Z DrawBuffer)
    (a : Z) (b : DrawBuffer) (r : Point) :
  call_drawBuffer c = Some a ->
  store !! a = Some b ->
  m_agroup b = true ->
  isTemporary b = false ->
  Point_ne (m_ref b) r = false ->
  isValid b = false ->
  batch_into_last (snapshot (call_color c) (call_texture c) p) (call_method c)
    (call_drawMode c) (current_bucket p) = None ->
  dedup_hit (add_call (p, store) c) c /\
  add_call (add_call (p, store) c) c = add_call (p, store) c.
Proof.
  intros Ha Hb Hg Ht Hne Hv Hbatch.
  assert (Hhit : dedup_hit (add_call (p, store) c) c).
  { unfold add_call, add. cbn [fst snd]. rewrite Ha, Hb.
    rewrite (dedup_fast_path_invalid _ _ _ Hv).
    unfold current_bucket in Hbatch. rewrite Hbatch. cbn [fst snd].
    exists a, (record_hash
                 (combined_hash (snapshot (call_color c) (call_texture c) p) (call_method c)) b), r.
    split; [exact Ha|]. split; [apply lookup_insert_eq|].
    split; [|split; [exact Hg|split]].
    - unfold record_hash, isTemporary. cbn. fold (isTemporary b). rewrite Ht.
      apply Z.eqb_neq; lia.
    - rewrite validate_same by exact Hne. f_equal.
      unfold record_hash, isValid, isTemporary. cbn. fold (isTemporary b). rewrite Ht.
      apply Z.ltb_lt; lia.
    - unfold snapshot. cbn. rewrite lookup_insert_eq. eauto. }
  split; [exact Hhit | apply dedup_hit_noop, Hhit].
Qed.












End AddProperties.



(** The scenario of the design document: a fresh pool with the cursor on
    floor 0 and order [FIRST], one rectangle emitted in white at opacity 1,
    then [flush]: the bucket holds one DrawCall with a single method and
    opacity 1, the hash index is empty and the cursor is on floor 1. *)
Example emit_one_rect_then_flush :
  map (fun o => (method o, methods o, option_map opacity (state o)))
      (objects_at (m_objects (@flush demo_framework (fst demo_first_frame))) 0 0)
    = [(Some (demo_rect 1), None, Some 1%float)] /\
  m_objectsByhash (@flush demo_framework (fst demo_first_frame)) = ∅ /\
  m_currentFloor (@flush demo_framework (fst demo_first_frame)) = 1 /\
  @drawcall_count demo_framework (fst demo_first_frame) = 1%nat.
Proof. repeat split; vm_compute; reflexivity. Qed.

(** * Further properties of the header *)

(** ** DrawBuffer *)

Section DrawBufferMore.
Context `{Framework}.

(** X1: validating twice against the same point is validating once: the
    second call changes nothing and answers as the first did. The point has
    to compare equal to itself. *)
Theorem validate_twice (p : Point) (b : DrawBuffer) :
  Point_ne p p = false ->
  validate p (fst (validate p b)) = validate p b.
Proof.
  intros Hrefl. destruct (Point_ne (m_ref b) p) eqn:Hne.
  - rewrite (validate_changed _ _ Hne). cbn [fst].
    rewrite validate_same by exact Hrefl.
    rewrite isValid_invalidate. reflexivity.
  - rewrite (validate_same _ _ Hne). cbn [fst]. apply validate_same, Hne.
Qed.

Lemma apply_op_frame (op : BufferOp) (b : DrawBuffer) :
  m_agroup (apply_op b op) = m_agroup b /\
  m_order (apply_op b op) = m_order b /\
  m_hashs (apply_op b op) = m_hashs b /\
  m_coords (apply_op b op) = m_coords b.
Proof.
  destruct op as [p|]; cbn; [|auto].
  destruct (Point_ne (m_ref b) p); cbn; auto.
Qed.

(** X2: no sequence of [validate] and [invalidate] calls touches the
    grouping flag, the order, the coordinates or the recorded hashes of a
    buffer: an invalidated buffer still carries the hash history of its
    last build. *)
Theorem validate_invalidate_frame (ops : list BufferOp) (b : DrawBuffer) :
  m_agroup (apply_ops ops b) = m_agroup b /\
  m_order (apply_ops ops b) = m_order b /\
  m_hashs (apply_ops ops b) = m_hashs b /\
  m_coords (apply_ops ops b) = m_coords b.
Proof.
  revert b. induction ops as [|op ops IH]; intros b; [auto|].
  rewrite apply_ops_cons.
  destruct (IH (apply_op b op)) as (-> & -> & -> & ->).
  apply apply_op_frame.
Qed.

(** One call either leaves the buffer as it is or leaves the invalid mark. *)
Lemma apply_op_same_or_invalid (op : BufferOp) (b : DrawBuffer) :
  apply_op b op = b \/ m_i (apply_op b op) = -1.
Proof.
  destruct op as [p|]; cbn; [|auto].
  destruct (Point_ne (m_ref b) p); cbn; auto.
Qed.

(** X3: a buffer that is valid, or temporary, after a sequence of
    [validate] and [invalidate] calls was not changed by any of them:
    these calls only ever take validity and the temporary mark away. *)
Theorem usable_means_untouched (ops : list BufferOp) (b : DrawBuffer) :
  isValid (apply_ops ops b) = true \/ isTemporary (apply_ops ops b) = true ->
  apply_ops ops b = b.
Proof.
  revert b. induction ops as [|op ops IH]; intros b Huse; [reflexivity|].
  rewrite apply_ops_cons in *.
  destruct (apply_op_same_or_invalid op b) as [Hsame | Hinv].
  - rewrite Hsame in *. apply IH, Huse.
  - exfalso. pose proof (apply_ops_invalid ops _ Hinv) as Hfinal.
    unfold isValid, isTemporary in Huse. rewrite Hfinal in Huse.
    destruct Huse; discriminate.
Qed.

(** X4: [getCoords] creates the coordinates buffer on first use only: the
    buffer then holds the address returned, a second call returns the same
    address whatever the allocator would give, and an address already held
    is returned as it is; validity, reference point and hashes are not
    touched. *)
Theorem getCoords_allocates_once (f1 f2 : Z) (b : DrawBuffer) :
  m_coords (fst (getCoords f1 b)) = Some (snd (getCoords f1 b)) /\
  getCoords f2 (fst (getCoords f1 b)) = getCoords f1 b /\
  (forall a, m_coords b = Some a -> getCoords f1 b = (b, a)) /\
  m_i (fst (getCoords f1 b)) = m_i b /\
  m_ref (fst (getCoords f1 b)) = m_ref b /\
  m_hashs (fst (getCoords f1 b)) = m_hashs b.
Proof.
  unfold getCoords. destruct (m_coords b) as [a|] eqn:Hc; cbn.
  - rewrite Hc. repeat split; try reflexivity. intros a' [= ->]. reflexivity.
  - repeat split; try reflexivity. intros a' [=].
Qed.

End DrawBufferMore.

Lemma validate_twice_witness :
  @validate demo_framework (3, 4) (fst (@validate demo_framework (3, 4) demo_buffer))
    = @validate demo_framework (3, 4) demo_buffer.
Proof. apply (@validate_twice demo_framework (3, 4) demo_buffer). reflexivity. Defined.

Lemma usable_means_untouched_witness :
  apply_ops [@OpValidate demo_framework (0, 0); @OpValidate demo_framework (0, 0)] demo_buffer
    = demo_buffer.
Proof.
  apply (@usable_means_untouched demo_framework). left. reflexivity.
Defined.

(** ** DrawObject *)

Section DrawObjectMore.
Context `{Framework}.

(** X5: [addMethod] is defined exactly on a DrawCall that holds a method
    list or a single method. On a DrawCall built from a closure alone, or
    from a state and a buffer, it reads an empty optional; on one built
    from a draw mode, a state and a method it is defined. *)
Theorem addMethod_defined_iff (m : DrawMethod) (o : DrawObject) :
  (is_Some (addMethod m o) <-> is_Some (methods o) \/ is_Some (method o)) /\
  (forall a, addMethod m (DrawObject_of_action a) = None) /\
  (forall s b, addMethod m (DrawObject_of_buffer s b) = None) /\
  (forall dm s m1, is_Some (addMethod m (DrawObject_of_method dm s m1))).
Proof.
  split; [|split; [|split]].
  - unfold addMethod.
    destruct (methods o) as [ms|]; [|destruct (method o) as [m1|]].
    + split; [intros _; left; eauto | intros _; eauto].
    + split; [intros _; right; eauto | intros _; eauto].
    + split; [intros [? ?]; discriminate | intros [[? ?]|[? ?]]; discriminate].
  - reflexivity.
  - reflexivity.
  - intros dm s m1. cbn. eauto.
Qed.

(** A run of calls on a DrawCall that holds a list extends the list in the
    order of the calls. *)
Lemma addMethods_list (ms : list DrawMethod) :
  forall (o : DrawObject) (l : list DrawMethod),
    methods o = Some l ->
    ms <> [] ->
    addMethods ms o =
      Some {| drawMode := DrawMode_TRIANGLES; buffer := buffer o; state := state o;
              method := method o; methods := Some (l ++ ms);
              object_action := object_action o |}.
Proof.
  induction ms as [|m ms IH]; intros o l Hl Hne; [congruence|].
  cbn [addMethods]. unfold addMethod at 1. rewrite Hl.
  destruct ms as [|m' ms'].
  - reflexivity.
  - rewrite (IH _ (l ++ [m])) by (reflexivity || discriminate).
    cbn. rewrite <- app_assoc. reflexivity.
Qed.

(** X6: any number of methods batched into a DrawCall that held the single
    method [M1] gives the list [M1 :: ms], in the order of the calls; the
    single-method member still holds [M1], the state, the buffer and the
    closure are those of the DrawCall, the draw mode is the batch mode. *)
Theorem addMethods_in_order (o : DrawObject) (M1 : DrawMethod) (ms : list DrawMethod) :
  method o = Some M1 ->
  methods o = None ->
  ms <> [] ->
  addMethods ms o =
    Some {| drawMode := DrawMode_TRIANGLES; buffer := buffer o; state := state o;
            method := Some M1; methods := Some (M1 :: ms);
            object_action := object_action o |}.
Proof.
  intros Hm Hms Hne. destruct ms as [|m ms]; [congruence|].
  cbn [addMethods]. rewrite (addMethod_single _ _ m Hm Hms).
  destruct ms as [|m' ms'].
  - cbn. rewrite Hm. reflexivity.
  - rewrite (addMethods_list _ _ [M1; m]) by (reflexivity || discriminate).
    cbn. rewrite Hm. reflexivity.
Qed.

End DrawObjectMore.

Lemma addMethods_in_order_witness :
  @addMethods demo_framework [demo_rect 2; demo_rect 3; demo_rect 4] demo_object =
    Some (@mkDrawObject demo_framework 0 None (state demo_object) (Some (demo_rect 1))
            (Some [demo_rect 1; demo_rect 2; demo_rect 3; demo_rect 4]) None).
Proof.
  apply (@addMethods_in_order demo_framework demo_object (demo_rect 1)); [reflexivity | reflexivity |].
  discriminate.
Defined.

(** ** DrawPool *)

Section DrawPoolMore.
Context `{Framework}.

Lemma flush_objects (p : DrawPool) : m_objects (flush p) = m_objects p.
Proof. apply flush_keeps_objects. Qed.

Lemma flush_order (p : DrawPool) : m_currentOrder (flush p) = m_currentOrder p.
Proof. apply flush_keeps_objects. Qed.

Lemma flush_iter_objects (n : nat) (p : DrawPool) :
  m_objects (Nat.iter n flush p) = m_objects p.
Proof.
  induction n as [|n IH]; [reflexivity|].
  change (Nat.iter (S n) flush p) with (flush (Nat.iter n flush p)).
  rewrite flush_objects. exact IH.
Qed.

(** On the deepest floor, a pool whose index is empty is left as it is. *)
Lemma flush_at_rest (p : DrawPool) :
  0 <= MAX_Z < 255 ->
  m_currentFloor p = MAX_Z ->
  flush (flush p) = flush p.
Proof.
  intros Hz Hf. unfold flush at 2 3. cbn.
  rewrite (ARR_MAX_Z_value Hz), Hf.
  destruct (Z.ltb_spec MAX_Z (MAX_Z + 1 - 1)) as [Hlt|_]; [lia|].
  unfold flush. cbn. rewrite (ARR_MAX_Z_value Hz), Hf.
  destruct (Z.ltb_spec MAX_Z (MAX_Z + 1 - 1)) as [Hlt|_]; [lia|].
  reflexivity.
Qed.

(** X7: [n] calls of [flush] move the floor cursor to [min (old + n)
    MAX_Z] and leave every bucket as it was; once the cursor is on the
    deepest floor, a further [flush] changes nothing at all. *)
Theorem flush_repeated (n : nat) (p : DrawPool) :
  0 <= MAX_Z < 255 ->
  0 <= m_currentFloor p <= MAX_Z ->
  m_currentFloor (Nat.iter n flush p) = Z.min (m_currentFloor p + Z.of_nat n) MAX_Z /\
  m_objects (Nat.iter n flush p) = m_objects p /\
  (MAX_Z <= m_currentFloor p + Z.of_nat n ->
   flush (Nat.iter (S n) flush p) = Nat.iter (S n) flush p).
Proof.
  intros Hz Hf.
  assert (Hiter : forall k, m_currentFloor (Nat.iter k flush p)
                            = Z.min (m_currentFloor p + Z.of_nat k) MAX_Z).
  { induction k as [|k IH]; [cbn; lia|].
    change (Nat.iter (S k) flush p) with (flush (Nat.iter k flush p)).
    rewrite flush_floor_min; [rewrite IH; lia | exact Hz | rewrite IH; lia]. }
  split; [apply Hiter|]. split; [apply flush_iter_objects|].
  intros Hdeep.
  change (Nat.iter (S n) flush p) with (flush (Nat.iter n flush p)).
  apply flush_at_rest; [exact Hz|].
  rewrite Hiter. lia.
Qed.

(** X8: [flush] keeps every bucket but moves the cursor: when it advances
    to a floor whose bucket is still empty, the last drawing of the pool is
    undefined there, though the DrawCalls of the floor it left are all
    kept. *)
Theorem flush_moves_last_drawing (p : DrawPool) :
  0 <= MAX_Z < 255 ->
  0 <= m_currentFloor p < MAX_Z ->
  objects_at (m_objects p) (m_currentFloor p + 1) (m_currentOrder p) = [] ->
  objects_at (m_objects (flush p)) (m_currentFloor p) (m_currentOrder p) = current_bucket p /\
  current_bucket (flush p) = [] /\
  getLastDrawObject (flush p) = None /\
  getOpacity true (flush p) = None /\
  getClipRect true (flush p) = None /\
  getOpacity false (flush p) = Some (opacity (m_state p)).
Proof.
  intros Hz Hf Hempty.
  assert (Hbucket : current_bucket (flush p) = []).
  { unfold current_bucket. rewrite flush_objects, flush_order, flush_floor_min by lia.
    rewrite Z.min_l by lia. exact Hempty. }
  split; [rewrite flush_objects; reflexivity|].
  split; [exact Hbucket|].
  rewrite getOpacity_last, getClipRect_last, (getLastDrawObject_empty _ Hbucket).
  repeat split.
  unfold getOpacity. cbn [negb].
  destruct (flush_keeps_objects p) as (_ & -> & _). reflexivity.
Qed.

Lemma apply_resets_cons (op : ResetOp) (ops : list ResetOp) (p : DrawPool) :
  apply_resets (op :: ops) p = apply_resets ops (apply_reset p op).
Proof. reflexivity. Qed.

(** One reset keeps everything of the pool but the pending state, and in
    it the transform, the colour, the texture and the closure. *)
Lemma apply_reset_frame (op : ResetOp) (p : DrawPool) :
  m_objects (apply_reset p op) = m_objects p /\
  m_objectsByhash (apply_reset p op) = m_objectsByhash p /\
  m_currentFloor (apply_reset p op) = m_currentFloor p /\
  m_currentOrder (apply_reset p op) = m_currentOrder p /\
  m_status (apply_reset p op) = m_status p /\
  transformMatrix (m_state (apply_reset p op)) = transformMatrix (m_state p) /\
  color (m_state (apply_reset p op)) = color (m_state p) /\
  texture (m_state (apply_reset p op)) = texture (m_state p) /\
  action (m_state (apply_reset p op)) = action (m_state p).
Proof. destruct op; cbn; auto 10. Qed.

Lemma getLastDrawObject_ext (p q : DrawPool) :
  m_objects p = m_objects q ->
  m_currentFloor p = m_currentFloor q ->
  m_currentOrder p = m_currentOrder q ->
  getLastDrawObject p = getLastDrawObject q.
Proof.
  intros Ho Hf Hc. unfold getLastDrawObject, current_bucket. rewrite Ho, Hf, Hc. reflexivity.
Qed.

(** X9: after any run of reset members, a field of the pending state holds
    its default if its reset member was called in the run and its old value
    if not; the run touches neither the buckets, the hash index, the cursor
    nor the repaint counters, so the readers of the last drawing answer as
    before. *)
Theorem resets_sequence (ops : list ResetOp) (p : DrawPool) :
  (opacity (m_state (apply_resets ops p))
     = if calls ROpacity ops then 1%float else opacity (m_state p)) /\
  (clipRect (m_state (apply_resets ops p))
     = if calls RClipRect ops then Rect_null else clipRect (m_state p)) /\
  (shaderProgram (m_state (apply_resets ops p))
     = if calls RShaderProgram ops then None else shaderProgram (m_state p)) /\
  (compositionMode (m_state (apply_resets ops p))
     = if calls RCompositionMode ops then CompositionMode_NORMAL
       else compositionMode (m_state p)) /\
  (blendEquation (m_state (apply_resets ops p))
     = if calls RBlendEquation ops then BlendEquation_ADD else blendEquation (m_state p)) /\
  m_objects (apply_resets ops p) = m_objects p /\
  m_objectsByhash (apply_resets ops p) = m_objectsByhash p /\
  m_currentFloor (apply_resets ops p) = m_currentFloor p /\
  m_status (apply_resets ops p) = m_status p /\
  getLastDrawObject (apply_resets ops p) = getLastDrawObject p /\
  getOpacity true (apply_resets ops p) = getOpacity true p /\
  getClipRect true (apply_resets ops p) = getClipRect true p.
Proof.
  assert (Hframe : forall ops p,
             m_objects (apply_resets ops p) = m_objects p /\
             m_objectsByhash (apply_resets ops p) = m_objectsByhash p /\
             m_currentFloor (apply_resets ops p) = m_currentFloor p /\
             m_currentOrder (apply_resets ops p) = m_currentOrder p /\
             m_status (apply_resets ops p) = m_status p).
  { clear ops p. induction ops as [|op ops IH]; intros p; [auto|].
    rewrite apply_resets_cons.
    destruct (IH (apply_reset p op)) as (-> & -> & -> & -> & ->).
    destruct (apply_reset_frame op p) as (-> & -> & -> & -> & -> & _). auto. }
  assert (Hfields : forall ops p,
    (opacity (m_state (apply_resets ops p))
       = if calls ROpacity ops then 1%float else opacity (m_state p)) /\
    (clipRect (m_state (apply_resets ops p))
       = if calls RClipRect ops then Rect_null else clipRect (m_state p)) /\
    (shaderProgram (m_state (apply_resets ops p))
       = if calls RShaderProgram ops then None else shaderProgram (m_state p)) /\
    (compositionMode (m_state (apply_resets ops p))
       = if calls RCompositionMode ops then CompositionMode_NORMAL
         else compositionMode (m_state p)) /\
    (blendEquation (m_state (apply_resets ops p))
       = if calls RBlendEquation ops then BlendEquation_ADD else blendEquation (m_state p))).
  { clear ops p. induction ops as [|op ops IH]; intros p; [cbn; auto|].
    rewrite apply_resets_cons.
    destruct (IH (apply_reset p op)) as (-> & -> & -> & -> & ->).
    unfold calls. cbn [existsb].
    destruct op; cbn [ResetOp_eq orb apply_reset];
      repeat split;
      repeat match goal with |- context [existsb ?f ?l] => destruct (existsb f l) end;
      reflexivity. }
  destruct (Hfields ops p) as (Ho & Hc & Hs & Hm & Hb).
  destruct (Hframe ops p) as (Hobj & Hidx & Hfl & Hord & Hst).
  assert (Hlast : getLastDrawObject (apply_resets ops p) = getLastDrawObject p)
    by (apply getLastDrawObject_ext; assumption).
  rewrite !getOpacity_last, !getClipRect_last, Hlast.
  auto 15.
Qed.

(** A run of resets, written as one assignment of the pending state. *)
Lemma apply_resets_normal_form (ops : list ResetOp) :
  forall p : DrawPool,
    apply_resets ops p =
      set_state
        {| transformMatrix := transformMatrix (m_state p);
           color := color (m_state p);
           opacity := if calls ROpacity ops then 1%float else opacity (m_state p);
           compositionMode := if calls RCompositionMode ops then CompositionMode_NORMAL
                              else compositionMode (m_state p);
           blendEquation := if calls RBlendEquation ops then BlendEquation_ADD
                            else blendEquation (m_state p);
           clipRect := if calls RClipRect ops then Rect_null else clipRect (m_state p);
           texture := texture (m_state p);
           shaderProgram := if calls RShaderProgram ops then None
                            else shaderProgram (m_state p);
           action := action (m_state p) |} p.
Proof.
  induction ops as [|op ops IH]; intros p.
  - destruct p as [? ? ? ? ? ? st ? ? ? ? ?]. destruct st. reflexivity.
  - rewrite apply_resets_cons, IH. unfold calls. cbn [existsb].
    destruct op; cbn [ResetOp_eq orb apply_reset];
      repeat match goal with |- context [existsb ?f ?l] => destruct (existsb f l) end;
      reflexivity.
Qed.

(** X10: the reset members can be called in any order and any number of
    times: two runs that call the same reset members leave the same pool. *)
Theorem resets_order_irrelevant (ops1 ops2 : list ResetOp) (p : DrawPool) :
  (forall op, calls op ops1 = calls op ops2) ->
  apply_resets ops1 p = apply_resets ops2 p.
Proof.
  intros Hsame. rewrite !apply_resets_normal_form.
  rewrite !(Hsame ROpacity), !(Hsame RClipRect), !(Hsame RShaderProgram),
    !(Hsame RCompositionMode), !(Hsame RBlendEquation).
  reflexivity.
Qed.

End DrawPoolMore.

Lemma resets_order_irrelevant_witness :
  @apply_resets demo_framework [ROpacity; RClipRect; ROpacity] demo_pool_drawn
    = @apply_resets demo_framework [RClipRect; ROpacity] demo_pool_drawn.
Proof.
  apply (@resets_order_irrelevant demo_framework). intros []; reflexivity.
Defined.

Lemma flush_repeated_witness :
  m_currentFloor (Nat.iter 20 (@flush demo_framework) demo_pool_drawn)
    = Z.min (m_currentFloor demo_pool_drawn + Z.of_nat 20) (@MAX_Z demo_framework) /\
  m_objects (Nat.iter 20 (@flush demo_framework) demo_pool_drawn) = m_objects demo_pool_drawn /\
  (@MAX_Z demo_framework <= m_currentFloor demo_pool_drawn + Z.of_nat 20 ->
   @flush demo_framework (Nat.iter 21 (@flush demo_framework) demo_pool_drawn)
     = Nat.iter 21 (@flush demo_framework) demo_pool_drawn).
Proof.
  apply (@flush_repeated demo_framework 20 demo_pool_drawn); cbn; lia.
Defined.

Lemma flush_moves_last_drawing_witness :
  objects_at (m_objects (@flush demo_framework demo_pool_drawn)) 0 0 = [demo_object] /\
  @getLastDrawObject demo_framework (@flush demo_framework demo_pool_drawn) = None /\
  @getOpacity demo_framework true (@flush demo_framework demo_pool_drawn) = None.
Proof.
  destruct (@flush_moves_last_drawing demo_framework demo_pool_drawn)
    as (Hkept & _ & Hlast & Hop & _); [cbn; lia | cbn; lia | reflexivity |].
  split; [exact Hkept | split; [exact Hlast | exact Hop]].
Defined.

(** * Properties of UIWidget *)

(** ** Integer conversions *)

Lemma to_size_t_small (z : Z) : 0 <= z <= SIZE_MAX -> to_size_t z = z.
Proof. intros Hz. unfold to_size_t. apply Z.mod_small. lia. Qed.

Lemma to_int_small (z : Z) : - 2 ^ 31 <= z < 2 ^ 31 -> to_int z = z.
Proof.
  intros Hz. unfold to_int. rewrite Z.mod_small; lia.
Qed.

(** Going through [size_t] does not change what an [int] receives. *)
Lemma to_int_to_size_t (z : Z) : to_int (to_size_t z) = to_int z.
Proof.
  unfold to_int, to_size_t, SIZE_MAX.
  change (2 ^ 64 - 1 + 1) with (2 ^ 32 * 2 ^ 32).
  rewrite <- (Zplus_mod_idemp_l (z mod (2 ^ 32 * 2 ^ 32))).
  rewrite <- (Zplus_mod_idemp_l z).
  rewrite Z.rem_mul_r by lia.
  rewrite Z.mul_comm, Z_mod_plus_full, Z.mod_mod by lia.
  reflexivity.
Qed.

(** A [size_t] sum wraps once, whatever wrapped before. *)
Lemma to_size_t_add_r (a b : Z) : to_size_t (a + to_size_t b) = to_size_t (a + b).
Proof. unfold to_size_t. apply Zplus_mod_idemp_r. Qed.

Lemma vector_at_in_range {A : Type} (v : list A) (i : Z) :
  0 <= i < Z.of_nat (length v) ->
  vector_at v i = v !! Z.to_nat i /\ is_Some (vector_at v i).
Proof.
  intros Hi. unfold vector_at.
  destruct (Z.leb_spec 0 i) as [_|?]; [|lia].
  destruct (Z.ltb_spec i (Z.of_nat (length v))) as [_|?]; [|lia].
  cbn [andb]. split; [reflexivity|]. apply lookup_lt_is_Some. lia.
Qed.

(** The index that [getChildByIndex] computes, as an integer. *)
Lemma getChildByIndex_index (size index : Z) :
  0 <= size < 2 ^ 31 ->
  - 2 ^ 31 <= index < 2 ^ 31 ->
  to_int (if index <=? 0 then to_size_t (size + to_size_t index) else to_size_t (index - 1))
    = if index <=? 0 then size + index else index - 1.
Proof.
  intros Hs Hi. destruct (Z.leb_spec index 0).
  - rewrite to_size_t_add_r, to_int_to_size_t. apply to_int_small. lia.
  - rewrite to_int_to_size_t. apply to_int_small. lia.
Qed.

(** ** Children by index *)

(** X11: [getChildByIndex] counts from 1 at the front and from -1 at the
    back: an index from 1 to the number of children gives the child at that
    place, an index from minus the number of children to -1 gives the child
    that far from the end, every other index, 0 among them, gives
    [nullptr]; the member never reads outside the deque. The deque holds
    fewer than 2^31 children and the index is an [int]. *)
Theorem getChildByIndex_spec (index : Z) (w : UIWidget) :
  Z.of_nat (length (m_children w)) < 2 ^ 31 ->
  - 2 ^ 31 <= index < 2 ^ 31 ->
  (1 <= index <= Z.of_nat (length (m_children w)) ->
     getChildByIndex index w = m_children w !! Z.to_nat (index - 1)) /\
  (- Z.of_nat (length (m_children w)) <= index <= -1 ->
     getChildByIndex index w
       = m_children w !! Z.to_nat (Z.of_nat (length (m_children w)) + index)) /\
  (index = 0 \/ Z.of_nat (length (m_children w)) < index
   \/ index < - Z.of_nat (length (m_children w)) ->
     getChildByIndex index w = Some None) /\
  is_Some (getChildByIndex index w).
Proof.
  intros Hsize Hidx.
  set (size := Z.of_nat (length (m_children w))) in *.
  assert (Hs0 : 0 <= size) by (subst size; lia).
  assert (Hin : forall i, 0 <= i < size ->
            (if (0 <=? i) && (to_size_t i <? size)
             then vector_at (m_children w) (to_size_t i) else Some None)
            = m_children w !! Z.to_nat i /\ is_Some (m_children w !! Z.to_nat i)).
  { intros i Hi. rewrite to_size_t_small by (unfold SIZE_MAX; lia).
    destruct (Z.leb_spec 0 i); [|lia]. destruct (Z.ltb_spec i size); [|lia].
    cbn [andb]. destruct (vector_at_in_range (m_children w) i Hi) as [-> Hsome].
    split; [reflexivity|]. apply lookup_lt_is_Some. subst size. lia. }
  assert (Hout : forall i, - 2 ^ 31 <= i < 2 ^ 31 -> ~ (0 <= i < size) ->
            (if (0 <=? i) && (to_size_t i <? size)
             then vector_at (m_children w) (to_size_t i) else Some None) = Some None).
  { intros i Hr Hi. destruct (Z.leb_spec 0 i); [|reflexivity].
    rewrite to_size_t_small by (unfold SIZE_MAX; lia).
    destruct (Z.ltb_spec i size); [lia|reflexivity]. }
  unfold getChildByIndex. fold size. cbn zeta.
  rewrite (getChildByIndex_index size index) by lia.
  split; [|split; [|split]].
  - intros Hpos. destruct (Z.leb_spec index 0); [lia|]. apply Hin. lia.
  - intros Hneg. destruct (Z.leb_spec index 0); [|lia]. apply Hin. lia.
  - intros Hbad. destruct (Z.leb_spec index 0); apply Hout; lia.
  - destruct (Z.leb_spec index 0).
    + destruct (Z_lt_le_dec (size + index) 0) as [Hlt|Hge].
      * rewrite Hout by lia. eauto.
      * destruct (Z_lt_le_dec (size + index) size) as [Hlt'|Hge'].
        -- destruct (Hin (size + index)) as [-> Hsome]; [lia | exact Hsome].
        -- rewrite Hout by lia. eauto.
    + destruct (Z_lt_le_dec (index - 1) size) as [Hlt|Hge].
      * destruct (Hin (index - 1)) as [-> Hsome]; [lia | exact Hsome].
      * rewrite Hout by lia. eauto.
Qed.

(** The same, for the two ends. *)
Lemma getChildByIndex_ends (w : UIWidget) :
  Z.of_nat (length (m_children w)) < 2 ^ 31 ->
  getChildByIndex 1 w = Some (default None (head (m_children w))) /\
  getChildByIndex (-1) w = Some (default None (last (m_children w))).
Proof.
  intros Hsize. unfold getChildByIndex. cbn zeta.
  set (size := Z.of_nat (length (m_children w))) in *.
  rewrite !(getChildByIndex_index size) by lia.
  change (1 <=? 0) with false. change (-1 <=? 0) with true. cbn iota.
  change (1 - 1) with 0. change (to_size_t 0) with 0. change (0 <=? 0) with true.
  cbn [andb]. split.
  - destruct (m_children w) as [|c l] eqn:Hl; [reflexivity|].
    subst size. cbn [length]. destruct (Z.ltb_spec 0 (Z.of_nat (S (length l)))); [|lia].
    reflexivity.
  - destruct (m_children w) as [|c l] eqn:Hl using rev_ind; [reflexivity|].
    subst size. rewrite last_snoc, length_app in *. cbn [length] in *.
    replace (Z.of_nat (length l + 1) + -1) with (Z.of_nat (length l)) by lia.
    rewrite to_size_t_small by (unfold SIZE_MAX; lia).
    destruct (Z.leb_spec 0 (Z.of_nat (length l))); [|lia].
    destruct (Z.ltb_spec (Z.of_nat (length l)) (Z.of_nat (length l + 1))); [|lia].
    cbn [andb default]. apply vector_at_last.
Qed.

(** X12: [getFirstChild] and [getLastChild] give the front and the back of
    the children; both give [nullptr] on a widget without children and the
    only child on a widget with one; [hasChildren] tells whether there is
    a child. *)
Theorem getFirstChild_getLastChild (w : UIWidget) :
  Z.of_nat (length (m_children w)) < 2 ^ 31 ->
  getFirstChild w = Some (default None (head (m_children w))) /\
  getLastChild w = Some (default None (last (m_children w))) /\
  (m_children w = [] -> getFirstChild w = Some None /\ getLastChild w = Some None) /\
  (forall c, m_children w = [c] -> getFirstChild w = Some c /\ getLastChild w = Some c) /\
  hasChildren w = negb (bool_decide (m_children w = [])).
Proof.
  intros Hsize. destruct (getChildByIndex_ends w Hsize) as [Hfirst Hlast].
  unfold getFirstChild, getLastChild. rewrite Hfirst, Hlast.
  split; [reflexivity|]. split; [reflexivity|]. split; [|split].
  - intros ->. split; reflexivity.
  - intros c ->. split; reflexivity.
  - unfold hasChildren. destruct (m_children w); reflexivity.
Qed.

(** ** Neighbours by cached index *)

(** X13: for a widget whose cached index [k] is a place among the children
    ([1 <= k <=] their number), [getChildAfter] gives the child at the next
    place and [nullptr] at the last one, [getChildBefore] gives the child
    at the place before and [nullptr] at the first one, and neither reads
    outside the deque. For a widget that is in no list (cached index -1)
    [getChildBefore] gives [nullptr], but [getChildAfter] reads outside the
    deque. *)
Theorem getChildAfter_getChildBefore (rc w : UIWidget) :
  Z.of_nat (length (m_children w)) < 2 ^ 31 ->
  (1 <= m_childIndex rc <= Z.of_nat (length (m_children w)) ->
     getChildAfter rc w
       = (if m_childIndex rc =? Z.of_nat (length (m_children w)) then Some None
          else m_children w !! Z.to_nat (m_childIndex rc)) /\
     getChildBefore rc w
       = (if m_childIndex rc =? 1 then Some None
          else m_children w !! Z.to_nat (m_childIndex rc - 2)) /\
     is_Some (getChildAfter rc w) /\ is_Some (getChildBefore rc w)) /\
  (m_childIndex rc = -1 ->
     getChildBefore rc w = Some None /\ getChildAfter rc w = None).
Proof.
  intros Hsize. set (size := Z.of_nat (length (m_children w))) in *.
  split.
  - intros Hk. unfold getChildAfter, getChildBefore. fold size.
    rewrite to_size_t_small by (unfold SIZE_MAX; lia).
    assert (Hafter : (if m_childIndex rc =? size then Some None
                      else vector_at (m_children w) (m_childIndex rc))
                     = (if m_childIndex rc =? size then Some None
                        else m_children w !! Z.to_nat (m_childIndex rc))
                     /\ is_Some (if m_childIndex rc =? size then Some None
                                 else vector_at (m_children w) (m_childIndex rc))).
    { destruct (Z.eqb_spec (m_childIndex rc) size); [eauto|].
      assert (Hr : 0 <= m_childIndex rc < Z.of_nat (length (m_children w)))
        by (subst size; lia).
      destruct (vector_at_in_range (m_children w) (m_childIndex rc) Hr) as [-> Hs].
      split; [reflexivity | exact Hs]. }
    assert (Hbefore : (if m_childIndex rc <=? 1 then Some None
                       else vector_at (m_children w) (to_size_t (m_childIndex rc - 2)))
                      = (if m_childIndex rc =? 1 then Some None
                         else m_children w !! Z.to_nat (m_childIndex rc - 2))
                      /\ is_Some (if m_childIndex rc <=? 1 then Some None
                                  else vector_at (m_children w)
                                         (to_size_t (m_childIndex rc - 2)))).
    { destruct (Z.leb_spec (m_childIndex rc) 1).
      - destruct (Z.eqb_spec (m_childIndex rc) 1); [eauto | lia].
      - destruct (Z.eqb_spec (m_childIndex rc) 1); [lia|].
        rewrite to_size_t_small by (unfold SIZE_MAX; lia).
        assert (Hr : 0 <= m_childIndex rc - 2 < Z.of_nat (length (m_children w)))
          by (subst size; lia).
        destruct (vector_at_in_range (m_children w) (m_childIndex rc - 2) Hr) as [-> Hs].
        split; [reflexivity | exact Hs]. }
    destruct Hafter as [Ha1 Ha2], Hbefore as [Hb1 Hb2].
    split; [exact Ha1|]. split; [exact Hb1|]. split; assumption.
  - intros Hk. unfold getChildAfter, getChildBefore. fold size. rewrite Hk.
    split; [reflexivity|].
    change (to_size_t (-1)) with SIZE_MAX.
    destruct (Z.eqb_spec SIZE_MAX size) as [Heq|_]; [unfold SIZE_MAX in Heq; lia|].
    apply vector_at_out_of_range. fold size. unfold SIZE_MAX. lia.
Qed.

(** X14: with a parent of [n] children and a cached index from 1 to [n],
    a widget is the first child exactly at index 1, the last one exactly
    at index [n], a middle one exactly in between; an only child is first
    and last at once. A widget without a parent is neither first nor last,
    and so it counts as a middle child. *)
Theorem child_place (pw w : UIWidget) :
  Z.of_nat (length (m_children pw)) < 2 ^ 31 ->
  1 <= m_childIndex w <= Z.of_nat (length (m_children pw)) ->
  isFirstChild (Some pw) w = (m_childIndex w =? 1) /\
  isLastChild (Some pw) w = (m_childIndex w =? Z.of_nat (length (m_children pw))) /\
  isMiddleChild (Some pw) w
    = ((1 <? m_childIndex w) && (m_childIndex w <? Z.of_nat (length (m_children pw)))) /\
  (length (m_children pw) = 1%nat ->
     isFirstChild (Some pw) w = true /\ isLastChild (Some pw) w = true) /\
  (isFirstChild None w = false /\ isLastChild None w = false /\ isMiddleChild None w = true).
Proof.
  intros Hsize Hk. unfold isMiddleChild, isFirstChild, isLastChild.
  rewrite to_size_t_small by (unfold SIZE_MAX; lia).
  split; [reflexivity|]. split; [reflexivity|]. split; [|split].
  - destruct (Z.eqb_spec (m_childIndex w) 1),
             (Z.eqb_spec (m_childIndex w) (Z.of_nat (length (m_children pw)))),
             (Z.ltb_spec 1 (m_childIndex w)),
             (Z.ltb_spec (m_childIndex w) (Z.of_nat (length (m_children pw))));
      cbn; try reflexivity; lia.
  - intros Hone. rewrite Hone in *. split; apply Z.eqb_eq; lia.
  - repeat split.
Qed.

(** ** State flags *)

(** The bit [k] of a set of flags. *)
Lemma land_pow2 (m k : Z) :
  0 <= k -> Z.land m (2 ^ k) = if Z.testbit m k then 2 ^ k else 0.
Proof.
  intros Hk. apply Z.bits_inj'. intros j Hj.
  rewrite Z.land_spec, Z.pow2_bits_eqb by exact Hk.
  destruct (Z.eqb_spec k j) as [Heq|Hne].
  - subst j. destruct (Z.testbit m k).
    + rewrite Z.pow2_bits_eqb, Z.eqb_refl by exact Hk. reflexivity.
    + rewrite Z.bits_0. reflexivity.
  - rewrite andb_false_r. destruct (Z.testbit m k).
    + rewrite Z.pow2_bits_eqb by exact Hk.
      destruct (Z.eqb_spec k j); [contradiction | reflexivity].
    + rewrite Z.bits_0. reflexivity.
Qed.

Lemma hasState_testbit (inv k : Z) (w : UIWidget) :
  0 <= k -> 2 ^ k <> inv -> hasState inv (2 ^ k) w = Z.testbit (m_states w) k.
Proof.
  intros Hk Hinv. unfold hasState.
  destruct (Z.eqb_spec (2 ^ k) inv); [contradiction|].
  rewrite land_pow2 by exact Hk.
  assert (0 < 2 ^ k) by (apply Z.pow_pos_nonneg; lia).
  destruct (Z.testbit (m_states w) k); [|reflexivity].
  destruct (Z.eqb_spec (2 ^ k) 0); [lia | reflexivity].
Qed.

(** The flags after the assignment of [setState]: bit [k] is [on], the
    others are as before. *)
Lemma set_bit_spec (m k : Z) (on : bool) (j : Z) :
  0 <= k -> 0 <= j ->
  Z.testbit (if on then Z.lor m (2 ^ k) else Z.land m (Z.lnot (2 ^ k))) j
    = if j =? k then on else Z.testbit m j.
Proof.
  intros Hk Hj. destruct on.
  - rewrite Z.lor_spec, Z.pow2_bits_eqb by exact Hk.
    destruct (Z.eqb_spec j k) as [->|Hne].
    + rewrite Z.eqb_refl. apply orb_true_r.
    + destruct (Z.eqb_spec k j); [congruence | apply orb_false_r].
  - rewrite Z.land_spec, Z.lnot_spec, Z.pow2_bits_eqb by assumption.
    destruct (Z.eqb_spec j k) as [->|Hne].
    + rewrite Z.eqb_refl. apply andb_false_r.
    + destruct (Z.eqb_spec k j); [congruence | apply andb_true_r].
Qed.

Lemma set_bit_same (m k : Z) (on : bool) :
  0 <= k ->
  (m = (if on then Z.lor m (2 ^ k) else Z.land m (Z.lnot (2 ^ k)))) <-> Z.testbit m k = on.
Proof.
  intros Hk. split.
  - intros Heq. rewrite Heq at 1. rewrite set_bit_spec by lia.
    rewrite Z.eqb_refl. reflexivity.
  - intros Hbit. apply Z.bits_inj'. intros j Hj.
    rewrite set_bit_spec by lia.
    destruct (Z.eqb_spec j k) as [->|_]; [exact Hbit | reflexivity].
Qed.

Lemma set_states_same (w : UIWidget) : set_states (m_states w) w = w.
Proof. destruct w. reflexivity. Qed.

(** X15: for a one-bit state [2^k] other than [InvalidState], [setState]
    answers false and leaves the widget as it is exactly when the state
    already is what was asked for; otherwise it sets bit [k] of the flags
    to the value asked for, keeps every other bit, hands that widget to
    [updateStyle] and answers true. [hasState] reads bit [k]. With
    [InvalidState] itself, [setState] does nothing and [hasState] answers
    false. *)
Theorem setState_one_bit (inv : Z) (updateStyle : UIWidget -> UIWidget)
    (k : Z) (on : bool) (w : UIWidget) :
  0 <= k ->
  2 ^ k <> inv ->
  hasState inv (2 ^ k) w = Z.testbit (m_states w) k /\
  (hasState inv (2 ^ k) w = on ->
     setState inv updateStyle (2 ^ k) on w = (w, false)) /\
  (hasState inv (2 ^ k) w <> on ->
     exists m',
       setState inv updateStyle (2 ^ k) on w = (updateStyle (set_states m' w), true) /\
       hasState inv (2 ^ k) (set_states m' w) = on /\
       forall j, 0 <= j -> j <> k -> Z.testbit m' j = Z.testbit (m_states w) j) /\
  (snd (setState inv updateStyle (2 ^ k) on w) = negb (Bool.eqb (hasState inv (2 ^ k) w) on)) /\
  (setState inv updateStyle inv on w = (w, false) /\ hasState inv inv w = false).
Proof.
  intros Hk Hinv.
  pose proof (hasState_testbit inv k w Hk Hinv) as Hhas.
  set (m' := if on then Z.lor (m_states w) (2 ^ k)
             else Z.land (m_states w) (Z.lnot (2 ^ k))).
  assert (Hstep : setState inv updateStyle (2 ^ k) on w
                  = if m_states w =? m' then (set_states m' w, false)
                    else (updateStyle (set_states m' w), true)).
  { unfold setState. destruct (Z.eqb_spec (2 ^ k) inv); [contradiction|].
    subst m'. destruct on; reflexivity. }
  assert (Hsame : m_states w = m' <-> Z.testbit (m_states w) k = on)
    by (subst m'; apply set_bit_same, Hk).
  split; [exact Hhas|]. split; [|split; [|split; [|split]]].
  - intros Hon. rewrite Hstep. rewrite Hhas in Hon. apply Hsame in Hon.
    rewrite <- Hon, Z.eqb_refl, set_states_same. reflexivity.
  - intros Hoff. exists m'. rewrite Hstep. rewrite Hhas in Hoff.
    destruct (Z.eqb_spec (m_states w) m') as [Heq|_]; [apply Hsame in Heq; contradiction|].
    split; [reflexivity|]. split.
    + rewrite hasState_testbit by assumption. cbn. subst m'.
      rewrite set_bit_spec, Z.eqb_refl by lia. reflexivity.
    + intros j Hj Hne. subst m'. rewrite set_bit_spec by lia.
      destruct (Z.eqb_spec j k); [contradiction | reflexivity].
  - rewrite Hstep, Hhas.
    destruct (Z.eqb_spec (m_states w) m') as [Heq|Hne].
    + apply Hsame in Heq. rewrite Heq. cbn. destruct on; reflexivity.
    + cbn. destruct (Z.testbit (m_states w) k) eqn:Hb, on; cbn; try reflexivity;
        exfalso; apply Hne, Hsame; reflexivity.
  - unfold setState. rewrite Z.eqb_refl. reflexivity.
  - unfold hasState. rewrite Z.eqb_refl. reflexivity.
Qed.

(** ** The widgets below a widget *)

(** Induction on a tree, with the property at hand for every child. *)
Lemma WidgetTree_children_ind (P : WidgetTree -> Prop) :
  (forall a cs, Forall P cs -> P (WidgetNode a cs)) -> forall t, P t.
Proof.
  intros Hnode. fix IH 1. intros [a cs]. apply Hnode.
  induction cs as [|c cs IHcs]; constructor; [apply IH | exact IHcs].
Qed.

(** The loop appends, for each child in turn, what is below the child and
    then the child. *)
Lemma recursiveGetChildren_unfold (t : WidgetTree) :
  recursiveGetChildren t
    = flat_map (fun c => recursiveGetChildren c ++ [tree_self c]) (tree_children t).
Proof.
  destruct t as [a cs]. cbn [recursiveGetChildren tree_children].
  enough (Hloop : forall acc : list Z,
    (fix loop (children : list Z) (cs : list WidgetTree) {struct cs} : list Z :=
       match cs with
       | [] => children
       | child :: cs' =>
           let subChildren := recursiveGetChildren child in
           let children := match subChildren with
                           | [] => children
                           | _ :: _ => children ++ subChildren
                           end in
           loop (children ++ [tree_self child]) cs'
       end) acc cs
    = acc ++ flat_map (fun c => recursiveGetChildren c ++ [tree_self c]) cs)
    by (apply (Hloop [])).
  induction cs as [|c cs IH]; intros acc; cbn [flat_map].
  - rewrite app_nil_r. reflexivity.
  - cbn zeta. rewrite IH. destruct (recursiveGetChildren c) as [|x sub].
    + cbn. rewrite <- app_assoc. reflexivity.
    + rewrite <- !app_assoc. reflexivity.
Qed.

Lemma tree_size_unfold (t : WidgetTree) :
  tree_size t = S (list_sum (map tree_size (tree_children t))).
Proof.
  destruct t as [a cs]. cbn [tree_size tree_children]. f_equal.
  induction cs as [|c cs IH]; [reflexivity|]. cbn [map list_sum]. rewrite IH. reflexivity.
Qed.

Lemma recursiveGetChildren_length (t : WidgetTree) :
  S (length (recursiveGetChildren t)) = tree_size t.
Proof.
  induction t as [a cs IH] using WidgetTree_children_ind.
  rewrite recursiveGetChildren_unfold, tree_size_unfold. cbn [tree_children]. f_equal.
  induction IH as [|c cs Hc _ IHcs]; [reflexivity|].
  unfold list_sum in *. cbn [flat_map map fold_right].
  rewrite !length_app, IHcs. cbn [length]. lia.
Qed.

(** X16: [recursiveGetChildren] lists the widgets below a widget, each
    child right after everything below that child: it has one entry for
    every widget of the tree but the root, it is empty exactly on a widget
    without children, and otherwise it ends with the last child. *)
Theorem recursiveGetChildren_postorder (t : WidgetTree) :
  recursiveGetChildren t
    = flat_map (fun c => recursiveGetChildren c ++ [tree_self c]) (tree_children t) /\
  S (length (recursiveGetChildren t)) = tree_size t /\
  (recursiveGetChildren t = [] <-> tree_children t = []) /\
  last (recursiveGetChildren t) = tree_self <$> last (tree_children t).
Proof.
  split; [apply recursiveGetChildren_unfold|].
  split; [apply recursiveGetChildren_length|].
  rewrite recursiveGetChildren_unfold.
  destruct (tree_children t) as [|c cs _] using rev_ind.
  - split; [split; reflexivity | reflexivity].
  - rewrite flat_map_app. cbn [flat_map]. rewrite app_nil_r, !app_assoc, !last_snoc.
    split; [|reflexivity].
    split; intros Heq; destruct cs; discriminate || (apply app_eq_nil in Heq as [_ ?]; discriminate).
Qed.

(** ** Witnesses on the sample widgets *)

Lemma getChildByIndex_spec_witness :
  getChildByIndex 2 demo_widget = Some (Some 12) /\
  getChildByIndex (-1) demo_widget = Some (Some 13) /\
  getChildByIndex 0 demo_widget = Some None.
Proof.
  assert (Hsize : Z.of_nat (length (m_children demo_widget)) < 2 ^ 31) by reflexivity.
  split; [|split].
  - apply (proj1 (getChildByIndex_spec 2 demo_widget Hsize ltac:(lia))). cbn. lia.
  - apply (proj1 (proj2 (getChildByIndex_spec (-1) demo_widget Hsize ltac:(lia)))). cbn. lia.
  - apply (proj1 (proj2 (proj2 (getChildByIndex_spec 0 demo_widget Hsize ltac:(lia))))).
    left. reflexivity.
Defined.

Lemma getFirstChild_getLastChild_witness :
  getFirstChild demo_widget = Some (Some 11) /\ getLastChild demo_widget = Some (Some 13).
Proof.
  destruct (getFirstChild_getLastChild demo_widget) as (Hfirst & Hlast & _); [reflexivity|].
  split; [exact Hfirst | exact Hlast].
Defined.

Lemma getChildAfter_getChildBefore_witness :
  getChildAfter demo_child demo_widget = Some (Some 13) /\
  getChildBefore demo_child demo_widget = Some (Some 11).
Proof.
  destruct (getChildAfter_getChildBefore demo_child demo_widget) as [Hin _]; [reflexivity|].
  destruct Hin as (Hafter & Hbefore & _); [cbn; lia|].
  split; [exact Hafter | exact Hbefore].
Defined.

Lemma child_place_witness :
  isFirstChild (Some demo_widget) demo_child = false /\
  isLastChild (Some demo_widget) demo_child = false /\
  isMiddleChild (Some demo_widget) demo_child = true.
Proof.
  destruct (child_place demo_widget demo_child) as (Hf & Hl & Hm & _);
    [reflexivity | cbn; lia |].
  split; [exact Hf | split; [exact Hl | exact Hm]].
Defined.

Lemma setState_one_bit_witness :
  hasState (-1) (2 ^ 1) demo_child = false /\
  snd (setState (-1) (fun w => w) (2 ^ 1) true demo_child) = true /\
  setState (-1) (fun w => w) (2 ^ 1) false demo_child = (demo_child, false).
Proof.
  destruct (setState_one_bit (-1) (fun w => w) 1 true demo_child) as (Hhas & _ & _ & Hsnd & _);
    [lia | discriminate |].
  destruct (setState_one_bit (-1) (fun w => w) 1 false demo_child) as (_ & Hnoop & _);
    [lia | discriminate |].
  split; [exact Hhas | split; [exact Hsnd | apply Hnoop; reflexivity]].
Defined.

Example recursiveGetChildren_demo : recursiveGetChildren demo_tree = [4; 5; 2; 3].
Proof. reflexivity. Qed.
